(** * EventEmitter: the listener registry and its dispatch

    A shallow embedding of the emitter of [@chickendinosaur/eventemitter].
    Four revisions of the same prototype live in the repository and are
    embedded side by side, one module each:

    - [Dist]          dist/EventEmitter.js (the shipped build, with pipes);
    - [Src]           src/EventEmitter.js, lines 1-220 (the ES6 source, no
                      pipes; unnamed/part_002 is its compiled twin);
    - [PipedBuild]    the build kept at src/EventEmitter.js, lines 221-542
                      (pipes, every loop counting down);
    - [CallbackBuild] the build kept at src/EventEmitter.js, lines 543-849
                      (listeners of every event in [_eventCallbacks]).

    Modelling choices, all taken from the code:

    - a function object is a [Callback]; [===] on functions is equality of
      callbacks. dist/EventEmitter.js tells a function from an array by
      [x.constructor === Function], which an async function or a generator
      function does not pass: such a function is a [fn_other], and carries
      its [length]. The other builds use [typeof x === 'function'], which
      every function passes;
    - the registry is an object literal: [obj[k]] finds the own property [k]
      or else the member that [Object.prototype] has under that name ([get]).
      An own property may hold [undefined] ([Some None]), and then hides the
      inherited member;
    - an array is only ever reachable through the slot that created it, so
      the in-place updates [push], [pop] and [splice] are written back into
      the slot;
    - [_eventHandlers] is [null] after [dispose()]; reading a property of
      [null] throws a [TypeError], as does calling [push] or [pop] on a value
      that has no such method, or [call] on [undefined]. The methods that can
      throw return a [Completion];
    - a listener is called with the emitter as [this] and the event as its
      argument list; it acts on the rest of the program state [U] and may
      throw. Listeners that re-enter the emitter that is dispatching to them
      are outside the model. Events are objects made by Event.js, and the
      emitter is a plain [EventEmitter] instance: this fixes what the members
      of [Object.prototype] do when the dispatch comes to call one. *)

From stdpp Require Import gmap strings list fin_maps.
From Equations Require Import Equations.

(** ** Values *)

(** The functions that [Object.prototype] holds. *)
Module ObjectPrototype.

Inductive Member :=
| constructor
| __defineGetter__
| __defineSetter__
| hasOwnProperty
| __lookupGetter__
| __lookupSetter__
| isPrototypeOf
| propertyIsEnumerable
| toString
| valueOf
| toLocaleString.

#[global] Instance Member_eq_dec : EqDecision Member.
Proof. solve_decision. Defined.

(** The function member of that name, if there is one. ['__proto__'] is a
    member too, but not a function: see [inherited]. *)
Definition member (k : string) : option Member :=
  match k with
  | "constructor" => Some constructor
  | "__defineGetter__" => Some __defineGetter__
  | "__defineSetter__" => Some __defineSetter__
  | "hasOwnProperty" => Some hasOwnProperty
  | "__lookupGetter__" => Some __lookupGetter__
  | "__lookupSetter__" => Some __lookupSetter__
  | "isPrototypeOf" => Some isPrototypeOf
  | "propertyIsEnumerable" => Some propertyIsEnumerable
  | "toString" => Some toString
  | "valueOf" => Some valueOf
  | "toLocaleString" => Some toLocaleString
  | _ => None
  end.

End ObjectPrototype.

(** A function object. [fn] and [fn_other] are functions of the program, the
    number is their identity; a [fn] has [Function] as its [constructor], a
    [fn_other] (an async function, a generator function) has not, and
    [length] is the number of its parameters. [member_fn] is a function of
    [Object.prototype]; its [constructor] is [Function]. *)
Inductive Callback :=
| fn (id : nat)
| fn_other (id : nat) (length : nat)
| member_fn (m : ObjectPrototype.Member).

#[global] Instance Callback_eq_dec : EqDecision Callback.
Proof. solve_decision. Defined.

(** [f.constructor === Function] *)
Definition constructor_is_Function (f : Callback) : bool :=
  match f with
  | fn_other _ _ => false
  | fn _ | member_fn _ => true
  end.

(** Property keys: an event type, [string|number], is used as a key of a
    plain object and hence as a string. *)
Abbreviation Key := string (only parsing).

(** What the emitter stores in a registry slot (or in the pipe field) when
    it stores neither [undefined] nor [null]. *)
Inductive Handlers :=
| Fn (f : Callback)
| Arr (a : list Callback).

#[global] Instance Handlers_eq_dec : EqDecision Handlers.
Proof. solve_decision. Defined.

(** [this._eventHandlers]: own properties; [Some None] is a key whose value
    is [undefined]. *)
Abbreviation Registry := (gmap string (option Handlers)) (only parsing).

(** What reading [obj[k]] can give: something the emitter stored
    ([undefined], a function, an array), a function of [Object.prototype],
    which is a [Fn] as well, or the object [Object.prototype] itself. *)
Inductive Value :=
| stored (v : option Handlers)
| Object_prototype.

#[warning="-uniform-inheritance"]
Coercion stored : option >-> Value.

#[global] Instance Value_eq_dec : EqDecision Value.
Proof. solve_decision. Defined.

(** [Object.prototype[k]]: the accessor ['__proto__'] gives the prototype of
    the registry, which is [Object.prototype]. *)
Definition inherited (k : Key) : Value :=
  if String.eqb k "__proto__" then Object_prototype
  else stored (Fn ∘ member_fn <$> ObjectPrototype.member k).

(** [obj[k]] on a registry: the own property, else the inherited one. *)
Definition get (obj : Registry) (k : Key) : Value :=
  match obj !! k with
  | Some v => stored v
  | None => inherited k
  end.

(** The functions a value stands for when a single function counts as one
    listener and an array as its elements, in array order. *)
Definition listeners (x : Value) : list Callback :=
  match x with
  | stored (Some (Fn f)) => [f]
  | stored (Some (Arr a)) => a
  | stored None | Object_prototype => []
  end.

(** Event.js: the carrier passed to [triggerEvent]. *)
Record Event := mkEvent {
  type : Key;
  target : option nat;
  payload : option nat
}.

Inductive Exception :=
| TypeError
| Thrown (v : nat).

Inductive Completion (A : Type) :=
| Normal (a : A)
| Throw (x : Exception).
Arguments Normal {A} & a.
Arguments Throw {A} x.

(** What [getEventListenerCount] returns: a number, or [undefined] when it
    returns the [length] of an object that has none. *)
Inductive Count :=
| number (n : nat)
| undefined.

Coercion number : nat >-> Count.

(** ** Array.prototype *)

Module JSArray.

(** [arr.push(x)] *)
Definition push (arr : list Callback) (x : Callback) : list Callback :=
  arr ++ [x].

(** [arr.pop()], the array that is left *)
Definition pop (arr : list Callback) : list Callback :=
  take (length arr - 1) arr.

(** [arr.splice(start, deleteCount)], the array that is left *)
Definition splice (start deleteCount : nat) (arr : list Callback)
  : list Callback :=
  take start arr ++ drop (start + deleteCount) arr.

End JSArray.
Import JSArray.

(** ** The loops over a listener array *)

(** [n = arr.length; i = 0;
     while (i < n) { if (callback === arr[i]) { arr.splice(i, 1); break; } ++i; }]
    with [k] the [n - i] iterations that are left. *)
Fixpoint scan_up (k i : nat) (callback : Callback) (arr : list Callback)
  : list Callback :=
  match k with
  | 0 => arr
  | S k' =>
      if decide (arr !! i = Some callback) then splice i 1 arr
      else scan_up k' (S i) callback arr
  end.

(** [i = arr.length;
     for (; i > 0;) { if (callback === arr[i]) { arr.splice(i, 1); break; } --i; }]
    The comparison reads [arr[i]] before [i] is decremented. *)
Fixpoint scan_down (i : nat) (callback : Callback) (arr : list Callback)
  : list Callback :=
  match i with
  | 0 => arr
  | S i' =>
      if decide (arr !! i = Some callback) then splice i 1 arr
      else scan_down i' callback arr
  end.

(** [i = arr.length; for (; i > 0;) { arr.pop(); --i; }] *)
Fixpoint pop_times (i : nat) (arr : list Callback) : list Callback :=
  match i with
  | 0 => arr
  | S i' => pop_times i' (pop arr)
  end.

Lemma pop_shorter (arr : list Callback) :
  0 < length arr → length (pop arr) < length arr.
Proof. unfold pop. rewrite length_take. lia. Qed.

(** [while (arr.length > 0) { arr.pop(); }] *)
Equations pop_while (arr : list Callback) : list Callback
  by wf (length arr) lt :=
  pop_while arr with decide (0 < length arr) := {
    | left _ => pop_while (pop arr)
    | right _ => arr }.
Next Obligation. apply pop_shorter. lia. Qed.

(** [i = arr.length;
     while (i > 0) { --i; if (callback === arr[i]) { arr.splice(i, 1); break; } }]
    Here [i] is decremented before [arr[i]] is read. *)
Fixpoint scan_back (i : nat) (callback : Callback) (arr : list Callback)
  : list Callback :=
  match i with
  | 0 => arr
  | S i' =>
      if decide (arr !! i' = Some callback) then splice i' 1 arr
      else scan_back i' callback arr
  end.

(** ** Calling listeners *)

Section Dispatch.

Context {E U : Type}.

(** What a function of the program does when called with [this] and an
    argument list, in a program state [u]: how the call completes, and the
    state it leaves. *)
Variable listener : Callback → E → list Event → U → Completion unit * U.

(** One call made by the emitter. *)
Record Invocation := mkInvocation {
  callee : Callback;
  thisArg : E;
  arguments : list Event
}.

(** What a dispatch did: the calls it made, how it completed, and the
    program state it left. *)
Record Dispatch := mkDispatch {
  invoked : list Invocation;
  completion : Completion unit;
  state : U
}.

(** What the called function does. A function of [Object.prototype], called
    with the emitter as [this] and the event as argument, changes nothing;
    [__defineGetter__] and [__defineSetter__] throw, as their second argument
    is not a function. *)
Definition respond (f : Callback) (this : E) (args : list Event) (u : U)
  : Completion unit * U :=
  match f with
  | member_fn ObjectPrototype.__defineGetter__
  | member_fn ObjectPrototype.__defineSetter__ => (Throw TypeError, u)
  | member_fn _ => (Normal (), u)
  | fn _ | fn_other _ _ => listener f this args u
  end.

Definition skip (u : U) : Dispatch :=
  {| invoked := []; completion := Normal (); state := u |}.

Definition throw (x : Exception) (u : U) : Dispatch :=
  {| invoked := []; completion := Throw x; state := u |}.

(** Statement sequencing: an abrupt completion skips what follows. *)
Definition and_then (d : Dispatch) (k : U → Dispatch) : Dispatch :=
  match completion d with
  | Normal _ =>
      let d' := k (state d) in
      {| invoked := invoked d ++ invoked d';
         completion := completion d';
         state := state d' |}
  | Throw _ => d
  end.

(** [f.call(this, event)] *)
Definition call (f : Callback) (this : E) (event : Event) (u : U) : Dispatch :=
  let r := respond f this [event] u in
  {| invoked := [ {| callee := f; thisArg := this; arguments := [event] |} ];
     completion := r.1;
     state := r.2 |}.

(** [arr[i].call(this, event)]; out of range [arr[i]] is [undefined]. *)
Definition call_at (arr : list Callback) (i : nat) (this : E) (event : Event)
  (u : U) : Dispatch :=
  match arr !! i with
  | Some f => call f this event u
  | None => throw TypeError u
  end.

(** [n = arr.length; i = 0; while (i < n) { arr[i].call(this, event); ++i; }]
    with [k] the [n - i] iterations that are left. *)
Fixpoint call_up (k i : nat) (arr : list Callback) (this : E) (event : Event)
  (u : U) : Dispatch :=
  match k with
  | 0 => skip u
  | S k' =>
      and_then (call_at arr i this event u) (call_up k' (S i) arr this event)
  end.

(** [i = arr.length; while (i > 0) { --i; arr[i].call(this, event); }] *)
Fixpoint call_down (i : nat) (arr : list Callback) (this : E) (event : Event)
  (u : U) : Dispatch :=
  match i with
  | 0 => skip u
  | S i' =>
      and_then (call_at arr i' this event u) (call_down i' arr this event)
  end.

End Dispatch.

Arguments Invocation : clear implicits.
Arguments Dispatch : clear implicits.

(** ** dist/EventEmitter.js *)

Module Dist.

Record EventEmitter := mkEventEmitter {
  _eventHandlers : option (gmap string (option Handlers));
  _pipedEventHandlers : option Handlers
}.

(** [function EventEmitter()], lines 83-97 *)
Definition constructor : EventEmitter :=
  {| _eventHandlers := Some ∅; _pipedEventHandlers := None |}.

(** [this._eventHandlers[type] = v] *)
Definition set_handler (this : EventEmitter) (obj : Registry) (type : Key)
  (v : option Handlers) : EventEmitter :=
  {| _eventHandlers := Some (<[type := v]> obj);
     _pipedEventHandlers := _pipedEventHandlers this |}.

(** [this._pipedEventHandlers = v] *)
Definition set_piped (this : EventEmitter) (v : option Handlers)
  : EventEmitter :=
  {| _eventHandlers := _eventHandlers this; _pipedEventHandlers := v |}.

(** lines 152-164. A function that is not a [Function], and
    [Object.prototype], go to the last branch and have no [push]. *)
Definition addEventListener (type : Key) (callback : Callback)
  (this : EventEmitter) : Completion EventEmitter :=
  match _eventHandlers this with
  | None => Throw TypeError
  | Some obj =>
      match get obj type with
      | stored None => Normal (set_handler this obj type (Some (Fn callback)))
      | stored (Some (Fn eventHandlers)) =>
          if constructor_is_Function eventHandlers
          then Normal (set_handler this obj type
                         (Some (Arr [eventHandlers; callback])))
          else Throw TypeError
      | stored (Some (Arr eventHandlers)) =>
          Normal (set_handler this obj type
                    (Some (Arr (push eventHandlers callback))))
      | Object_prototype => Throw TypeError
      end
  end.

(** line 171 *)
Definition on := addEventListener.

(** lines 180-200. A function that is not a [Function] is scanned as
    [f[0], ..., f[f.length - 1]], which are all [undefined]; the [length] of
    [Object.prototype] is [undefined], and the loop does not start. *)
Definition removeEventListener (type : Key) (callback : Callback)
  (this : EventEmitter) : Completion EventEmitter :=
  match _eventHandlers this with
  | None => Throw TypeError
  | Some obj =>
      match get obj type with
      | stored None => Normal this
      | stored (Some (Fn eventHandlers)) =>
          if constructor_is_Function eventHandlers
          then Normal (set_handler this obj type None)
          else Normal this
      | stored (Some (Arr eventHandlers)) =>
          Normal (set_handler this obj type
                    (Some (Arr (scan_up (length eventHandlers) 0 callback
                                  eventHandlers))))
      | Object_prototype => Normal this
      end
  end.

(** lines 208-220. A function that is not a [Function] has no [pop]: the
    loop throws when its [length] is not 0. *)
Definition removeAllEventListeners (type : Key) (this : EventEmitter)
  : Completion EventEmitter :=
  match _eventHandlers this with
  | None => Throw TypeError
  | Some obj =>
      match get obj type with
      | stored None => Normal this
      | stored (Some (Fn eventHandlers)) =>
          match eventHandlers with
          | fn_other _ 0 => Normal this
          | fn_other _ (S _) => Throw TypeError
          | fn _ | member_fn _ => Normal (set_handler this obj type None)
          end
      | stored (Some (Arr eventHandlers)) =>
          Normal (set_handler this obj type
                    (Some (Arr (pop_while eventHandlers))))
      | Object_prototype => Normal this
      end
  end.

(** lines 228-240 *)
Definition getEventListenerCount (type : Key) (this : EventEmitter)
  : Completion Count :=
  match _eventHandlers this with
  | None => Throw TypeError
  | Some obj =>
      match get obj type with
      | stored None => Normal 0
      | stored (Some (Fn eventHandlers)) =>
          match eventHandlers with
          | fn_other _ length => Normal length
          | fn _ | member_fn _ => Normal 1
          end
      | stored (Some (Arr eventHandlers)) => Normal (length eventHandlers)
      | Object_prototype => Normal undefined
      end
  end.

(** lines 246-256 *)
Definition pipe (callback : Callback) (this : EventEmitter)
  : Completion EventEmitter :=
  match _pipedEventHandlers this with
  | None => Normal (set_piped this (Some (Fn callback)))
  | Some (Fn pipedEventHandlers) =>
      if constructor_is_Function pipedEventHandlers
      then Normal (set_piped this (Some (Arr [pipedEventHandlers; callback])))
      else Throw TypeError
  | Some (Arr pipedEventHandlers) =>
      Normal (set_piped this (Some (Arr (push pipedEventHandlers callback))))
  end.

(** lines 262-282 *)
Definition unpipe (callback : Callback) (this : EventEmitter) : EventEmitter :=
  match _pipedEventHandlers this with
  | None => this
  | Some (Fn pipedEventHandlers) =>
      if constructor_is_Function pipedEventHandlers
      then set_piped this None
      else this
  | Some (Arr pipedEventHandlers) =>
      set_piped this
        (Some (Arr (scan_up (length pipedEventHandlers) 0 callback
                      pipedEventHandlers)))
  end.

(** lines 287-299 *)
Definition unpipeAll (this : EventEmitter) : Completion EventEmitter :=
  match _pipedEventHandlers this with
  | None => Normal this
  | Some (Fn pipedEventHandlers) =>
      match pipedEventHandlers with
      | fn_other _ 0 => Normal this
      | fn_other _ (S _) => Throw TypeError
      | fn _ | member_fn _ => Normal (set_piped this None)
      end
  | Some (Arr pipedEventHandlers) =>
      Normal (set_piped this (Some (Arr (pop_while pipedEventHandlers))))
  end.

(** lines 304-316 *)
Definition getPipedEventListenerCount (this : EventEmitter) : nat :=
  match _pipedEventHandlers this with
  | None => 0
  | Some (Fn pipedEventHandlers) =>
      match pipedEventHandlers with
      | fn_other _ length => length
      | fn _ | member_fn _ => 1
      end
  | Some (Arr pipedEventHandlers) => length pipedEventHandlers
  end.

(** lines 323-325 *)
Definition init (this : EventEmitter) : EventEmitter :=
  {| _eventHandlers := Some ∅;
     _pipedEventHandlers := _pipedEventHandlers this |}.

(** lines 332-335 *)
Definition dispose (this : EventEmitter) : EventEmitter :=
  {| _eventHandlers := None; _pipedEventHandlers := None |}.

Section Trigger.

Context {U : Type}.
Variable listener :
  Callback → EventEmitter → list Event → U → Completion unit * U.

(** The body shared by lines 110-123 and 126-141: a [Function] is called;
    anything else is walked as [x[0], ..., x[x.length - 1]]. For a function
    that is not a [Function] these are all [undefined]; the [length] of
    [Object.prototype] is [undefined], and the loop does not start. *)
Definition call_handlers (x : Value) (this : EventEmitter)
  (event : Event) (u : U) : Dispatch EventEmitter U :=
  match x with
  | stored None => skip u
  | stored (Some (Fn f)) =>
      match f with
      | fn_other _ length => call_up listener length 0 [] this event u
      | fn _ | member_fn _ => call listener f this event u
      end
  | stored (Some (Arr a)) => call_up listener (length a) 0 a this event u
  | Object_prototype => skip u
  end.

(** lines 107-142 *)
Definition triggerEvent (this : EventEmitter) (event : Event) (u : U)
  : Dispatch EventEmitter U :=
  match _eventHandlers this with
  | None => throw TypeError u
  | Some obj =>
      and_then (call_handlers (get obj (type event)) this event u)
        (call_handlers (_pipedEventHandlers this) this event)
  end.

End Trigger.

End Dist.

(** ** src/EventEmitter.js, lines 1-220 *)

Module Src.

Record EventEmitter := mkEventEmitter {
  _eventListeners : option (gmap string (option Handlers))
}.

(** lines 66-74 *)
Definition constructor : EventEmitter := {| _eventListeners := Some ∅ |}.

(** [this._eventListeners[type] = v] *)
Definition set_listener (obj : Registry) (type : Key) (v : option Handlers)
  : EventEmitter :=
  {| _eventListeners := Some (<[type := v]> obj) |}.

(** lines 111-123; [Object.prototype] has no [push] *)
Definition addEventListener (type : Key) (callback : Callback)
  (this : EventEmitter) : Completion EventEmitter :=
  match _eventListeners this with
  | None => Throw TypeError
  | Some obj =>
      match get obj type with
      | stored None => Normal (set_listener obj type (Some (Fn callback)))
      | stored (Some (Fn eventHandlers)) =>
          Normal (set_listener obj type (Some (Arr [eventHandlers; callback])))
      | stored (Some (Arr eventHandlers)) =>
          Normal (set_listener obj type
                    (Some (Arr (push eventHandlers callback))))
      | Object_prototype => Throw TypeError
      end
  end.

(** lines 139-158; the [length] of [Object.prototype] is [undefined], and
    the loop does not start *)
Definition removeEventListener (type : Key) (callback : Callback)
  (this : EventEmitter) : Completion EventEmitter :=
  match _eventListeners this with
  | None => Throw TypeError
  | Some obj =>
      match get obj type with
      | stored None => Normal this
      | stored (Some (Fn _)) => Normal (set_listener obj type None)
      | stored (Some (Arr eventListeners)) =>
          Normal (set_listener obj type
                    (Some (Arr (scan_down (length eventListeners) callback
                                  eventListeners))))
      | Object_prototype => Normal this
      end
  end.

(** lines 166-182 *)
Definition removeAllEventListeners (type : Key) (this : EventEmitter)
  : Completion EventEmitter :=
  match _eventListeners this with
  | None => Throw TypeError
  | Some obj =>
      match get obj type with
      | stored None => Normal this
      | stored (Some (Fn _)) => Normal (set_listener obj type None)
      | stored (Some (Arr eventListeners)) =>
          Normal (set_listener obj type
                    (Some (Arr (pop_times (length eventListeners)
                                  eventListeners))))
      | Object_prototype => Normal this
      end
  end.

(** lines 190-202 *)
Definition getEventListenerCount (type : Key) (this : EventEmitter)
  : Completion Count :=
  match _eventListeners this with
  | None => Throw TypeError
  | Some obj =>
      match get obj type with
      | stored None => Normal 0
      | stored (Some (Fn _)) => Normal 1
      | stored (Some (Arr eventListeners)) => Normal (length eventListeners)
      | Object_prototype => Normal undefined
      end
  end.

(** lines 209-211 *)
Definition init (this : EventEmitter) : EventEmitter :=
  {| _eventListeners := Some ∅ |}.

(** lines 218-220 *)
Definition dispose (this : EventEmitter) : EventEmitter :=
  {| _eventListeners := None |}.

Section Trigger.

Context {U : Type}.
Variable listener :
  Callback → EventEmitter → list Event → U → Completion unit * U.

(** lines 84-101 *)
Definition triggerEvent (this : EventEmitter) (event : Event) (u : U)
  : Dispatch EventEmitter U :=
  match _eventListeners this with
  | None => throw TypeError u
  | Some obj =>
      match get obj (type event) with
      | stored None => skip u
      | stored (Some (Fn eventHandlers)) =>
          call listener eventHandlers this event u
      | stored (Some (Arr eventHandlers)) =>
          call_up listener (length eventHandlers) 0 eventHandlers this event u
      | Object_prototype => skip u
      end
  end.

End Trigger.

End Src.

(** ** The build at src/EventEmitter.js, lines 221-542 *)

Module PipedBuild.

Record EventEmitter := mkEventEmitter {
  _eventListeners : option (gmap string (option Handlers));
  _pipedEventListeners : option Handlers
}.

(** lines 302-316 *)
Definition constructor : EventEmitter :=
  {| _eventListeners := Some ∅; _pipedEventListeners := None |}.

(** lines 369-381 *)
Definition addEventListener (type : Key) (callback : Callback)
  (this : EventEmitter) : Completion EventEmitter :=
  match _eventListeners this with
  | None => Throw TypeError
  | Some obj =>
      let store v :=
        {| _eventListeners := Some (<[type := v]> obj);
           _pipedEventListeners := _pipedEventListeners this |} in
      match get obj type with
      | stored None => Normal (store (Some (Fn callback)))
      | stored (Some (Fn eventHandlers)) =>
          Normal (store (Some (Arr [eventHandlers; callback])))
      | stored (Some (Arr eventHandlers)) =>
          Normal (store (Some (Arr (push eventHandlers callback))))
      | Object_prototype => Throw TypeError
      end
  end.

(** lines 458-468 *)
Definition pipe (callback : Callback) (this : EventEmitter) : EventEmitter :=
  let store v :=
    {| _eventListeners := _eventListeners this;
       _pipedEventListeners := v |} in
  match _pipedEventListeners this with
  | None => store (Some (Fn callback))
  | Some (Fn pipedEventListeners) =>
      store (Some (Arr [pipedEventListeners; callback]))
  | Some (Arr pipedEventListeners) =>
      store (Some (Arr (push pipedEventListeners callback)))
  end.

(** [this._eventListeners[type] = v] *)
Definition set_listener (this : EventEmitter) (obj : Registry) (type : Key)
  (v : option Handlers) : EventEmitter :=
  {| _eventListeners := Some (<[type := v]> obj);
     _pipedEventListeners := _pipedEventListeners this |}.

(** [this._pipedEventListeners = v] *)
Definition set_piped (this : EventEmitter) (v : option Handlers)
  : EventEmitter :=
  {| _eventListeners := _eventListeners this; _pipedEventListeners := v |}.

(** lines 397-416 *)
Definition removeEventListener (type : Key) (callback : Callback)
  (this : EventEmitter) : Completion EventEmitter :=
  match _eventListeners this with
  | None => Throw TypeError
  | Some obj =>
      match get obj type with
      | stored None => Normal this
      | stored (Some (Fn _)) => Normal (set_listener this obj type None)
      | stored (Some (Arr eventListeners)) =>
          Normal (set_listener this obj type
                    (Some (Arr (scan_back (length eventListeners) callback
                                  eventListeners))))
      | Object_prototype => Normal this
      end
  end.

(** lines 424-436 *)
Definition removeAllEventListeners (type : Key) (this : EventEmitter)
  : Completion EventEmitter :=
  match _eventListeners this with
  | None => Throw TypeError
  | Some obj =>
      match get obj type with
      | stored None => Normal this
      | stored (Some (Fn _)) => Normal (set_listener this obj type None)
      | stored (Some (Arr eventListeners)) =>
          Normal (set_listener this obj type
                    (Some (Arr (pop_while eventListeners))))
      | Object_prototype => Normal this
      end
  end.

(** lines 444-452 *)
Definition getEventListenerCount (type : Key) (this : EventEmitter)
  : Completion Count :=
  match _eventListeners this with
  | None => Throw TypeError
  | Some obj =>
      match get obj type with
      | stored None => Normal 0
      | stored (Some (Fn _)) => Normal 1
      | stored (Some (Arr eventListeners)) => Normal (length eventListeners)
      | Object_prototype => Normal undefined
      end
  end.

(** lines 474-493 *)
Definition unpipe (callback : Callback) (this : EventEmitter) : EventEmitter :=
  match _pipedEventListeners this with
  | None => this
  | Some (Fn _) => set_piped this None
  | Some (Arr pipedEventListeners) =>
      set_piped this
        (Some (Arr (scan_back (length pipedEventListeners) callback
                      pipedEventListeners)))
  end.

(** lines 498-510 *)
Definition unpipeAll (this : EventEmitter) : EventEmitter :=
  match _pipedEventListeners this with
  | None => this
  | Some (Fn _) => set_piped this None
  | Some (Arr pipedEventListeners) =>
      set_piped this (Some (Arr (pop_while pipedEventListeners)))
  end.

(** lines 515-523 *)
Definition getPipedEventListenerCount (this : EventEmitter) : nat :=
  match _pipedEventListeners this with
  | None => 0
  | Some (Fn _) => 1
  | Some (Arr pipedEventListeners) => length pipedEventListeners
  end.

(** lines 530-532 *)
Definition init (this : EventEmitter) : EventEmitter :=
  {| _eventListeners := Some ∅;
     _pipedEventListeners := _pipedEventListeners this |}.

(** lines 539-542 *)
Definition dispose (this : EventEmitter) : EventEmitter :=
  {| _eventListeners := None; _pipedEventListeners := None |}.

Section Trigger.

Context {U : Type}.
Variable listener :
  Callback → EventEmitter → list Event → U → Completion unit * U.

(** The body shared by lines 329-341 and 344-358: a function is called, an
    array is walked from its last index down; the [length] of
    [Object.prototype] is [undefined], and the loop does not start. *)
Definition call_listeners (x : Value) (this : EventEmitter)
  (event : Event) (u : U) : Dispatch EventEmitter U :=
  match x with
  | stored None => skip u
  | stored (Some (Fn f)) => call listener f this event u
  | stored (Some (Arr a)) => call_down listener (length a) a this event u
  | Object_prototype => skip u
  end.

(** lines 326-359 *)
Definition triggerEvent (this : EventEmitter) (event : Event) (u : U)
  : Dispatch EventEmitter U :=
  match _eventListeners this with
  | None => throw TypeError u
  | Some obj =>
      and_then (call_listeners (get obj (type event)) this event u)
        (call_listeners (_pipedEventListeners this) this event)
  end.

End Trigger.

End PipedBuild.

(** ** The build at src/EventEmitter.js, lines 543-849 *)

(** Listeners for every event are kept in [_eventCallbacks], [null] or an
    array, and are added and removed through the same methods as the typed
    ones, called with the function as only argument. The two documented call
    shapes are told apart by [callback === undefined]. *)

Module CallbackBuild.

Record EventEmitter := mkEventEmitter {
  _eventListeners : option (gmap string (option Handlers));
  _eventCallbacks : option (list Callback)
}.

(** [addEventListener(type, callback)] or [addEventListener(callback)];
    likewise for [removeEventListener]. *)
Inductive Args :=
| typed (type : Key) (callback : Callback)
| untyped (callback : Callback).

(** lines 612-626 *)
Definition constructor : EventEmitter :=
  {| _eventListeners := Some ∅; _eventCallbacks := None |}.

(** [this._eventListeners[type] = v] *)
Definition set_listener (this : EventEmitter) (obj : Registry) (type : Key)
  (v : option Handlers) : EventEmitter :=
  {| _eventListeners := Some (<[type := v]> obj);
     _eventCallbacks := _eventCallbacks this |}.

(** [this._eventCallbacks] after an update of the array in place *)
Definition set_callbacks (this : EventEmitter) (arr : list Callback)
  : EventEmitter :=
  {| _eventListeners := _eventListeners this; _eventCallbacks := Some arr |}.

(** lines 783-789 *)
Definition _addEventCallback (callback : Callback) (this : EventEmitter)
  : EventEmitter :=
  match _eventCallbacks this with
  | None => set_callbacks this (push [] callback)
  | Some eventCallbacks => set_callbacks this (push eventCallbacks callback)
  end.

(** lines 795-807; [eventCallbacks.length] on [null] throws *)
Definition _removeEventCallback (callback : Callback) (this : EventEmitter)
  : Completion EventEmitter :=
  match _eventCallbacks this with
  | None => Throw TypeError
  | Some eventCallbacks =>
      Normal (set_callbacks this
                (scan_back (length eventCallbacks) callback eventCallbacks))
  end.

(** lines 812-818; [eventCallbacks.length] on [null] throws *)
Definition _removeAllEventCallbacks (this : EventEmitter)
  : Completion EventEmitter :=
  match _eventCallbacks this with
  | None => Throw TypeError
  | Some eventCallbacks => Normal (set_callbacks this (pop_while eventCallbacks))
  end.

(** lines 823-831 *)
Definition _getEventCallbackCount (this : EventEmitter) : nat :=
  match _eventCallbacks this with
  | None => 0
  | Some eventCallbacks => length eventCallbacks
  end.

(** lines 674-690 *)
Definition addEventListener (args : Args) (this : EventEmitter)
  : Completion EventEmitter :=
  match args with
  | untyped callback => Normal (_addEventCallback callback this)
  | typed type callback =>
      match _eventListeners this with
      | None => Throw TypeError
      | Some obj =>
          match get obj type with
          | stored None =>
              Normal (set_listener this obj type (Some (Fn callback)))
          | stored (Some (Fn eventHandlers)) =>
              Normal (set_listener this obj type
                        (Some (Arr [eventHandlers; callback])))
          | stored (Some (Arr eventHandlers)) =>
              Normal (set_listener this obj type
                        (Some (Arr (push eventHandlers callback))))
          | Object_prototype => Throw TypeError
          end
      end
  end.

(** lines 706-729 *)
Definition removeEventListener (args : Args) (this : EventEmitter)
  : Completion EventEmitter :=
  match args with
  | untyped callback => _removeEventCallback callback this
  | typed type callback =>
      match _eventListeners this with
      | None => Throw TypeError
      | Some obj =>
          match get obj type with
          | stored None => Normal this
          | stored (Some (Fn _)) => Normal (set_listener this obj type None)
          | stored (Some (Arr eventListeners)) =>
              Normal (set_listener this obj type
                        (Some (Arr (scan_back (length eventListeners) callback
                                      eventListeners))))
          | Object_prototype => Normal this
          end
      end
  end.

(** lines 737-753; [None] is the call without argument *)
Definition removeAllEventListeners (type : option Key) (this : EventEmitter)
  : Completion EventEmitter :=
  match type with
  | None => _removeAllEventCallbacks this
  | Some type =>
      match _eventListeners this with
      | None => Throw TypeError
      | Some obj =>
          match get obj type with
          | stored None => Normal this
          | stored (Some (Fn _)) => Normal (set_listener this obj type None)
          | stored (Some (Arr eventListeners)) =>
              Normal (set_listener this obj type
                        (Some (Arr (pop_while eventListeners))))
          | Object_prototype => Normal this
          end
      end
  end.

(** lines 761-777; [None] is the call without argument. In that branch the
    value of [this._getEventCallbackCount()] is not assigned to [result]. *)
Definition getEventListenerCount (type : option Key) (this : EventEmitter)
  : Completion Count :=
  let result := 0 in
  match type with
  | None => let _ := _getEventCallbackCount this in Normal result
  | Some type =>
      match _eventListeners this with
      | None => Throw TypeError
      | Some obj =>
          match get obj type with
          | stored (Some (Fn _)) => Normal 1
          | stored (Some (Arr eventListeners)) =>
              Normal (length eventListeners)
          | Object_prototype => Normal undefined
          | stored None => Normal result
          end
      end
  end.

(** lines 838-840 *)
Definition init (this : EventEmitter) : EventEmitter :=
  {| _eventListeners := Some ∅; _eventCallbacks := _eventCallbacks this |}.

(** lines 847-849: only the typed registry is released *)
Definition dispose (this : EventEmitter) : EventEmitter :=
  {| _eventListeners := None; _eventCallbacks := _eventCallbacks this |}.

Section Trigger.

Context {U : Type}.
Variable listener :
  Callback → EventEmitter → list Event → U → Completion unit * U.

(** lines 636-664 *)
Definition triggerEvent (this : EventEmitter) (event : Event) (u : U)
  : Dispatch EventEmitter U :=
  match _eventListeners this with
  | None => throw TypeError u
  | Some obj =>
      and_then
        (match get obj (type event) with
         | stored None => skip u
         | stored (Some (Fn eventListeners)) =>
             call listener eventListeners this event u
         | stored (Some (Arr eventListeners)) =>
             call_down listener (length eventListeners) eventListeners
               this event u
         | Object_prototype => skip u
         end)
        (λ u',
           match _eventCallbacks this with
           | None => skip u'
           | Some eventCallbacks =>
               call_down listener (length eventCallbacks) eventCallbacks
                 this event u'
           end)
  end.

End Trigger.

End CallbackBuild.

(** ** Notions the properties are stated with *)

(** Successive calls of one method, [step x1; step x2; ...], stopping at the
    first that throws. *)
Fixpoint for_each {A S : Type} (step : A → S → Completion S) (xs : list A)
  (s : S) : Completion S :=
  match xs with
  | [] => Normal s
  | x :: xs' =>
      match step x s with
      | Normal s' => for_each step xs' s'
      | Throw e => Throw e
      end
  end.

(** The array without the first element equal to [callback], if any. *)
Fixpoint remove_first (callback : Callback) (arr : list Callback)
  : list Callback :=
  match arr with
  | [] => []
  | x :: arr' =>
      if decide (x = callback) then arr' else x :: remove_first callback arr'
  end.

(** Every function of the list has [Function] as its [constructor]. *)
Definition all_Function (fs : list Callback) : Prop :=
  ∀ f, f ∈ fs → constructor_is_Function f = true.

(** If the value is a single function, its [constructor] is [Function]. *)
Definition single_is_Function (x : Value) : Prop :=
  ∀ f, x = Some (Fn f) → constructor_is_Function f = true.

(** What a method leaves in a slot it has emptied. *)
Definition emptied (x : Value) : Prop := x = None ∨ x = Some (Arr []).

(** What the walk of dist/EventEmitter.js over a value comes to call, in
    order: a function, or [undefined] ([None]) at an index that holds
    nothing. *)
Definition dist_targets (x : Value) : list (option Callback) :=
  match x with
  | stored (Some (Fn f)) =>
      match f with
      | fn_other _ length => replicate length None
      | fn _ | member_fn _ => [Some f]
      end
  | stored (Some (Arr a)) => Some <$> a
  | stored None | Object_prototype => []
  end.

Section Delivery.

Context {E U : Type}.
Variable listener : Callback → E → list Event → U → Completion unit * U.
Variable this : E.
Variable event : Event.

(** The call [f.call(this, event)] as it is recorded. *)
Definition invocation (f : Callback) : Invocation E :=
  {| callee := f; thisArg := this; arguments := [event] |}.

(** Calling the functions of a list one after the other, up to the first
    that throws. *)
Fixpoint deliver (fs : list Callback) (u : U) : Dispatch E U :=
  match fs with
  | [] => skip u
  | f :: fs' => and_then (call listener f this event u) (deliver fs')
  end.

(** The same, where [None] stands for an [undefined] that is called. *)
Fixpoint attempt (ts : list (option Callback)) (u : U) : Dispatch E U :=
  match ts with
  | [] => skip u
  | t :: ts' =>
      and_then
        (match t with
         | Some f => call listener f this event u
         | None => throw TypeError u
         end)
        (attempt ts')
  end.


(** [runs fs u u']: called one after the other from state [u], every function
    of [fs] completes normally, and the last one leaves [u']. *)
Inductive runs : list Callback → U → U → Prop :=
| runs_nil u : runs [] u u
| runs_cons f fs u u1 u2 :
    respond listener f this [event] u = (Normal (), u1) →
    runs fs u1 u2 →
    runs (f :: fs) u u2.

End Delivery.

(** A call of one of the three methods that write the typed registry. *)
Inductive Method :=
| add (type : Key) (callback : Callback)
| remove (type : Key) (callback : Callback)
| removeAll (type : Key).

Definition method_type (m : Method) : Key :=
  match m with
  | add type _ | remove type _ | removeAll type => type
  end.

(** The functions that the calls of a list pass to [addEventListener]. *)
Definition added (ms : list Method) : list Callback :=
  flat_map (λ m, match m with add _ callback => [callback] | _ => [] end) ms.

(** The call, made on an emitter of dist/EventEmitter.js. *)
Definition dist_invoke (m : Method) (this : Dist.EventEmitter)
  : Completion Dist.EventEmitter :=
  match m with
  | add type callback => Dist.addEventListener type callback this
  | remove type callback => Dist.removeEventListener type callback this
  | removeAll type => Dist.removeAllEventListeners type this
  end.

(** The array without the last element equal to [callback], if any. *)
Definition remove_last (callback : Callback) (arr : list Callback)
  : list Callback :=
  reverse (remove_first callback (reverse arr)).

(** ** Sample listeners and events *)

Module Sample.

Definition h1 : Callback := fn 1.
Definition h2 : Callback := fn 2.
Definition h3 : Callback := fn 3.

(** The event of the test suite, [new CountEvent('count')]. *)
Definition ev1 : Event := {| type := "count"; target := None; payload := None |}.


(** Every listener adds one to a counter, as [handler1] of the tests does
    with [e.increment]. *)
Definition counting {E : Type} (f : Callback) (this : E) (args : list Event)
  (count : nat) : Completion unit * nat :=
  (Normal (), S count).

(** As [counting], but the function [fn 2] throws. *)
Definition faulty {E : Type} (f : Callback) (this : E) (args : list Event)
  (count : nat) : Completion unit * nat :=
  if decide (f = h2) then (Throw (Thrown 7), count) else (Normal (), S count).

(** dist: ['count'] holds [[h1, h2]], [h3] is piped. *)
Definition dist_two : Dist.EventEmitter :=
  {| Dist._eventHandlers := Some {[ "count" := Some (Arr [h1; h2]) ]};
     Dist._pipedEventHandlers := Some (Fn h3) |}.

(** dist: ['count'] holds the function [h1]. *)
Definition dist_one : Dist.EventEmitter :=
  {| Dist._eventHandlers := Some {[ "count" := Some (Fn h1) ]};
     Dist._pipedEventHandlers := None |}.

(** src: ['count'] holds [[h1, h2]]. *)
Definition src_two : Src.EventEmitter :=
  {| Src._eventListeners := Some {[ "count" := Some (Arr [h1; h2]) ]} |}.

(** src: ['count'] holds the function [h1]. *)
Definition src_one : Src.EventEmitter :=
  {| Src._eventListeners := Some {[ "count" := Some (Fn h1) ]} |}.

End Sample.

Module Sample2.

(** dist: nothing registered, [[h1, h2, h1]] piped. *)
Definition dist_piped : Dist.EventEmitter :=
  {| Dist._eventHandlers := Some ∅;
     Dist._pipedEventHandlers :=
       Some (Arr [Sample.h1; Sample.h2; Sample.h1]) |}.

(** src: ['count'] holds [[h1, h2, h1, h2]]. *)
Definition src_four : Src.EventEmitter :=
  {| Src._eventListeners :=
       Some {[ "count" := Some (Arr [Sample.h1; Sample.h2;
                                      Sample.h1; Sample.h2]) ]} |}.

(** piped build: ['count'] holds [[h1, h2, h1]], [[h3, h2]] piped. *)
Definition piped_three : PipedBuild.EventEmitter :=
  {| PipedBuild._eventListeners :=
       Some {[ "count" := Some (Arr [Sample.h1; Sample.h2; Sample.h1]) ]};
     PipedBuild._pipedEventListeners := Some (Arr [Sample.h3; Sample.h2]) |}.

(** third build: ['count'] holds [[h1, h2]], [[h3, h1]] listen to every
    event. *)
Definition callbacks_two : CallbackBuild.EventEmitter :=
  {| CallbackBuild._eventListeners :=
       Some {[ "count" := Some (Arr [Sample.h1; Sample.h2]) ]};
     CallbackBuild._eventCallbacks := Some [Sample.h3; Sample.h1] |}.

End Sample2.

Module Sample3.

(** [async function (event, extra) { ... }] *)
Definition a1 : Callback := fn_other 4 2.


Definition ev_defineGetter : Event :=
  {| type := "__defineGetter__"; target := None; payload := None |}.

Definition ev_proto : Event :=
  {| type := "__proto__"; target := None; payload := None |}.


(** dist: nothing registered, the async function [a1] piped. *)
Definition dist_async_piped : Dist.EventEmitter :=
  {| Dist._eventHandlers := Some ∅;
     Dist._pipedEventHandlers := Some (Fn a1) |}.

End Sample3.

(** ** Tactics *)

(** Membership in a list that is given by its elements: one goal for each. *)
Ltac each_element H :=
  repeat (apply elem_of_cons in H; destruct H as [H | H]; [subst|]);
  try (apply elem_of_nil in H; destruct H).

(** A value that is given in full is not [Object.prototype], and holds no
    single function that fails the test of dist/EventEmitter.js. *)
Ltac by_reading :=
  let H := fresh in
  first
    [ intros H; vm_compute in H; discriminate H
    | intros ? H; vm_compute in H;
      first [discriminate H | injection H as <-; reflexivity] ].

(** * Properties *)

(** ** The array loops *)

Lemma pop_length (arr : list Callback) : length (pop arr) = length arr - 1.
Proof. unfold pop. rewrite length_take. lia. Qed.

Lemma pop_while_empty (arr : list Callback) : pop_while arr = [].
Proof.
  funelim (pop_while arr).
  - assumption.
  - destruct arr as [|x arr]; [reflexivity | simpl in *; lia].
Qed.

Lemma pop_times_empty (i : nat) (arr : list Callback) :
  length arr ≤ i → pop_times i arr = [].
Proof.
  revert arr. induction i as [|i IH]; intros arr Hlen; simpl.
  - destruct arr; [reflexivity | simpl in Hlen; lia].
  - apply IH. rewrite pop_length. lia.
Qed.

Lemma splice_one_app (pre : list Callback) (x : Callback)
  (post : list Callback) :
  splice (length pre) 1 (pre ++ x :: post) = pre ++ post.
Proof.
  unfold splice. rewrite take_app_length. f_equal.
  change (x :: post) with ([x] ++ post). rewrite app_assoc.
  replace (length pre + 1) with (length (pre ++ [x]))
    by (rewrite length_app; reflexivity).
  apply drop_app_length.
Qed.

(** The upward scan removes the first match at or after index [i]. *)
Lemma scan_up_from (callback : Callback) (rest pre : list Callback) :
  callback ∉ pre →
  scan_up (length rest) (length pre) callback (pre ++ rest)
  = pre ++ remove_first callback rest.
Proof.
  revert pre. induction rest as [|x rest IH]; intros pre Hpre; simpl.
  - reflexivity.
  - rewrite list_lookup_middle by reflexivity.
    destruct (decide (Some x = Some callback)) as [Heq|Hne].
    + injection Heq as ->. rewrite decide_True by reflexivity.
      apply splice_one_app.
    + rewrite decide_False by congruence.
      replace (S (length pre)) with (length (pre ++ [x]))
        by (rewrite length_app; simpl; lia).
      replace (pre ++ x :: rest) with ((pre ++ [x]) ++ rest)
        by (rewrite <- app_assoc; reflexivity).
      rewrite IH.
      * rewrite <- app_assoc. reflexivity.
      * rewrite elem_of_app, list_elem_of_singleton.
        intros [H | H]; [contradiction | congruence].
Qed.

Lemma scan_up_remove_first (callback : Callback) (arr : list Callback) :
  scan_up (length arr) 0 callback arr = remove_first callback arr.
Proof. apply (scan_up_from callback arr []). apply not_elem_of_nil. Qed.

Lemma remove_first_absent (callback : Callback) (arr : list Callback) :
  callback ∉ arr → remove_first callback arr = arr.
Proof.
  induction arr as [|x arr IH]; intros Hnot; simpl; [reflexivity|].
  rewrite not_elem_of_cons in Hnot. destruct Hnot as [Hne Hnot].
  rewrite decide_False by congruence. rewrite IH by assumption. reflexivity.
Qed.

Lemma remove_first_middle (callback : Callback) (pre post : list Callback) :
  callback ∉ pre →
  remove_first callback (pre ++ callback :: post) = pre ++ post.
Proof.
  induction pre as [|x pre IH]; intros Hnot; simpl.
  - rewrite decide_True by reflexivity. reflexivity.
  - rewrite not_elem_of_cons in Hnot. destruct Hnot as [Hne Hnot].
    rewrite decide_False by congruence. rewrite IH by assumption. reflexivity.
Qed.

Lemma remove_first_length (callback : Callback) (arr : list Callback) :
  callback ∈ arr → S (length (remove_first callback arr)) = length arr.
Proof.
  induction arr as [|x arr IH]; intros Hin; simpl.
  - apply elem_of_nil in Hin. contradiction.
  - destruct (decide (x = callback)) as [->|Hne]; [reflexivity|].
    simpl. rewrite IH; [reflexivity|].
    apply elem_of_cons in Hin. destruct Hin as [Heq | Hin];
      [congruence | assumption].
Qed.

(** The downward scan of src/EventEmitter.js compares [arr[i]] for
    [i = length, ..., 1] only: when none of these is the callback, the array
    is left as it is, whatever sits at index 0. *)
Lemma scan_down_no_match (callback : Callback) (arr : list Callback)
  (i : nat) :
  (∀ j, 0 < j → arr !! j ≠ Some callback) →
  scan_down i callback arr = arr.
Proof.
  intros Hno. induction i as [|i IH]; simpl; [reflexivity|].
  rewrite decide_False by (apply Hno; lia). exact IH.
Qed.

Lemma scan_down_absent (callback : Callback) (arr : list Callback) :
  callback ∉ arr → scan_down (length arr) callback arr = arr.
Proof.
  intros Hnot. apply scan_down_no_match. intros j _ Hj.
  apply Hnot. apply list_elem_of_lookup. exists j. exact Hj.
Qed.

Lemma scan_down_only_at_0 (callback : Callback) (rest : list Callback) :
  callback ∉ rest →
  scan_down (length (callback :: rest)) callback (callback :: rest)
  = callback :: rest.
Proof.
  intros Hnot. apply scan_down_no_match. intros j Hj Hlook.
  destruct j as [|j]; [lia|]. simpl in Hlook.
  apply Hnot. apply list_elem_of_lookup. exists j. exact Hlook.
Qed.

(** ** The scan that decrements first *)

Lemma remove_last_snoc_eq (callback : Callback) (pre : list Callback) :
  remove_last callback (pre ++ [callback]) = pre.
Proof.
  unfold remove_last. rewrite reverse_snoc. simpl.
  rewrite decide_True by reflexivity. apply reverse_involutive.
Qed.

Lemma remove_last_snoc_ne (callback x : Callback) (pre : list Callback) :
  x ≠ callback →
  remove_last callback (pre ++ [x]) = remove_last callback pre ++ [x].
Proof.
  intros Hne. unfold remove_last. rewrite reverse_snoc. simpl.
  rewrite decide_False by exact Hne. rewrite reverse_cons. reflexivity.
Qed.

Lemma remove_last_absent (callback : Callback) (arr : list Callback) :
  callback ∉ arr → remove_last callback arr = arr.
Proof.
  intros Hnot. unfold remove_last.
  rewrite remove_first_absent by (rewrite elem_of_reverse; exact Hnot).
  apply reverse_involutive.
Qed.

Lemma remove_last_middle (callback : Callback) (pre post : list Callback) :
  callback ∉ post →
  remove_last callback (pre ++ callback :: post) = pre ++ post.
Proof.
  intros Hnot. unfold remove_last.
  rewrite reverse_app, reverse_cons, <- app_assoc. simpl.
  rewrite remove_first_middle by (rewrite elem_of_reverse; exact Hnot).
  rewrite reverse_app, !reverse_involutive. reflexivity.
Qed.

(** Below index [length pre] the scan removes the last match, if any. *)
Lemma scan_back_from (callback : Callback) (pre post : list Callback) :
  scan_back (length pre) callback (pre ++ post)
  = remove_last callback pre ++ post.
Proof.
  revert post. induction pre as [|x pre IH] using rev_ind; intros post.
  - reflexivity.
  - rewrite length_app. simpl. rewrite Nat.add_1_r. simpl.
    rewrite <- app_assoc. simpl.
    rewrite list_lookup_middle by reflexivity.
    destruct (decide (Some x = Some callback)) as [Heq|Hne].
    + injection Heq as ->. rewrite remove_last_snoc_eq.
      apply splice_one_app.
    + rewrite IH. rewrite remove_last_snoc_ne by congruence.
      rewrite <- app_assoc. reflexivity.
Qed.

Lemma scan_back_remove_last (callback : Callback) (arr : list Callback) :
  scan_back (length arr) callback arr = remove_last callback arr.
Proof.
  rewrite <- (app_nil_r arr) at 2. rewrite scan_back_from.
  apply app_nil_r.
Qed.

(** The scan of src/EventEmitter.js:139-158 on [x :: tl] is the scan that
    decrements first, run on [tl]: index 0 is out of its reach. *)
Lemma scan_down_tail (i : nat) (callback x : Callback) (tl : list Callback) :
  scan_down i callback (x :: tl) = x :: scan_back i callback tl.
Proof.
  induction i as [|i IH]; simpl; [reflexivity|].
  destruct (decide (tl !! i = Some callback)); [reflexivity | exact IH].
Qed.

Lemma scan_down_remove_last (callback x : Callback) (tl : list Callback) :
  scan_down (length (x :: tl)) callback (x :: tl)
  = x :: remove_last callback tl.
Proof.
  simpl. rewrite decide_False.
  - rewrite scan_down_tail, scan_back_remove_last. reflexivity.
  - rewrite lookup_ge_None_2 by lia. discriminate.
Qed.

(** ** Dispatch: the loops against delivery to a list *)

Section DeliveryFacts.

Context {E U : Type}.
Variable listener : Callback → E → list Event → U → Completion unit * U.
Variable this : E.
Variable event : Event.

Lemma and_then_skip (u : U) (k : U → Dispatch E U) :
  and_then (skip u) k = k u.
Proof. unfold and_then. simpl. destruct (k u). reflexivity. Qed.

Lemma and_then_done (d : Dispatch E U) : and_then d skip = d.
Proof.
  destruct d as [inv [[]|x] s]; unfold and_then; simpl; [|reflexivity].
  rewrite app_nil_r. reflexivity.
Qed.

Lemma and_then_ext (d : Dispatch E U) (k k' : U → Dispatch E U) :
  (∀ u, k u = k' u) → and_then d k = and_then d k'.
Proof. intros Hk. unfold and_then. rewrite Hk. reflexivity. Qed.

Lemma and_then_assoc (d : Dispatch E U) (k1 k2 : U → Dispatch E U) :
  and_then (and_then d k1) k2 = and_then d (λ u, and_then (k1 u) k2).
Proof.
  destruct d as [inv [[]|x] s]; unfold and_then; simpl; [|reflexivity].
  destruct (k1 s) as [inv1 [[]|x1] s1]; simpl; [|reflexivity].
  rewrite app_assoc. reflexivity.
Qed.

Lemma attempt_app (ts ts' : list (option Callback)) (u : U) :
  attempt listener this event (ts ++ ts') u
  = and_then (attempt listener this event ts u)
      (attempt listener this event ts').
Proof.
  revert u. induction ts as [|t ts IH]; intros u; simpl.
  - rewrite and_then_skip. reflexivity.
  - rewrite and_then_assoc. apply and_then_ext. exact IH.
Qed.

Lemma attempt_Some (fs : list Callback) (u : U) :
  attempt listener this event (Some <$> fs) u
  = deliver listener this event fs u.
Proof.
  revert u. induction fs as [|f fs IH]; intros u; simpl; [reflexivity|].
  apply and_then_ext. exact IH.
Qed.

Lemma deliver_app (fs gs : list Callback) (u : U) :
  deliver listener this event (fs ++ gs) u
  = and_then (deliver listener this event fs u)
      (deliver listener this event gs).
Proof.
  rewrite <- attempt_Some, fmap_app, attempt_app, attempt_Some.
  apply and_then_ext. intros u'. apply attempt_Some.
Qed.

(** The upward walk, index by index. *)
Lemma call_up_attempt (k i : nat) (arr : list Callback) (u : U) :
  call_up listener k i arr this event u
  = attempt listener this event ((λ j, arr !! j) <$> seq i k) u.
Proof.
  revert i u. induction k as [|k IH]; intros i u; simpl; [reflexivity|].
  unfold call_at. apply and_then_ext. intros u'. apply IH.
Qed.

Lemma lookups_in_range (arr : list Callback) :
  (λ j, arr !! j) <$> seq 0 (length arr) = Some <$> arr.
Proof.
  induction arr as [|x arr IH] using rev_ind; [reflexivity|].
  rewrite length_app. simpl. rewrite seq_app, !fmap_app. simpl.
  f_equal.
  - rewrite <- IH. apply list_fmap_ext. intros j i Hi.
    apply lookup_seq in Hi. destruct Hi as [-> Hlt]. simpl.
    apply lookup_app_l. exact Hlt.
  - rewrite list_lookup_middle by reflexivity. reflexivity.
Qed.

Lemma lookups_in_empty (i k : nat) :
  (λ j, ([] : list Callback) !! j) <$> seq i k = replicate k None.
Proof.
  revert i. induction k as [|k IH]; intros i; simpl; [reflexivity|].
  rewrite IH. reflexivity.
Qed.


Lemma call_down_deliver (i : nat) (arr : list Callback) (u : U) :
  i ≤ length arr →
  call_down listener i arr this event u
  = deliver listener this event (reverse (take i arr)) u.
Proof.
  revert u. induction i as [|i IH]; intros u Hlen; simpl.
  - reflexivity.
  - destruct (lookup_lt_is_Some_2 arr i) as [f Hf]; [lia|].
    unfold call_at. rewrite Hf. rewrite (take_S_r _ _ _ Hf).
    rewrite reverse_snoc. simpl.
    apply and_then_ext. intros u'. apply IH. lia.
Qed.


Lemma deliver_runs (pre : list Callback) (u u1 : U) :
  runs listener this event pre u u1 →
  deliver listener this event pre u
  = {| invoked := map (invocation this event) pre;
       completion := Normal ();
       state := u1 |}.
Proof.
  induction 1 as [u | f fs u u1 u2 Hf Hruns IH]; simpl.
  - reflexivity.
  - unfold and_then, call. rewrite Hf. simpl. rewrite IH. reflexivity.
Qed.

(** The first function that throws ends the walk: the functions before it
    and itself have been called, nothing after it. *)
Lemma attempt_throw (pre : list Callback) (post : list (option Callback))
  (f : Callback) (x : Exception) (u u1 u2 : U) :
  runs listener this event pre u u1 →
  respond listener f this [event] u1 = (Throw x, u2) →
  attempt listener this event ((Some <$> pre) ++ Some f :: post) u
  = {| invoked := map (invocation this event) (pre ++ [f]);
       completion := Throw x;
       state := u2 |}.
Proof.
  intros Hruns Hf.
  rewrite attempt_app, attempt_Some, (deliver_runs _ _ _ Hruns).
  unfold and_then at 1. simpl.
  unfold and_then, call. rewrite Hf. simpl.
  rewrite map_app. reflexivity.
Qed.

Lemma deliver_throw (pre post : list Callback) (f : Callback) (x : Exception)
  (u u1 u2 : U) :
  runs listener this event pre u u1 →
  respond listener f this [event] u1 = (Throw x, u2) →
  deliver listener this event (pre ++ f :: post) u
  = {| invoked := map (invocation this event) (pre ++ [f]);
       completion := Throw x;
       state := u2 |}.
Proof.
  intros Hruns Hf. rewrite <- attempt_Some, fmap_app. simpl.
  exact (attempt_throw pre (Some <$> post) f x u u1 u2 Hruns Hf).
Qed.

End DeliveryFacts.

(** ** What each revision's [triggerEvent] comes to call *)


Lemma dist_call_handlers_attempt {U : Type}
  (listener : Callback → Dist.EventEmitter → list Event → U
              → Completion unit * U)
  (x : Value) (this : Dist.EventEmitter) (event : Event) (u : U) :
  Dist.call_handlers listener x this event u
  = attempt listener this event (dist_targets x) u.
Proof.
  destruct x as [[[f|a]|]|]; simpl; try reflexivity.
  - destruct f as [id | id n | m]; simpl.
    + symmetry. apply and_then_done.
    + rewrite call_up_attempt, lookups_in_empty. reflexivity.
    + symmetry. apply and_then_done.
  - rewrite call_up_attempt, lookups_in_range. reflexivity.
Qed.

Lemma dist_trigger_attempt {U : Type}
  (listener : Callback → Dist.EventEmitter → list Event → U
              → Completion unit * U)
  (this : Dist.EventEmitter) (obj : gmap string (option Handlers))
  (event : Event) (u : U) :
  Dist._eventHandlers this = Some obj →
  Dist.triggerEvent listener this event u
  = attempt listener this event
      (dist_targets (get obj (type event))
       ++ dist_targets (Dist._pipedEventHandlers this)) u.
Proof.
  intros Hlive. unfold Dist.triggerEvent. rewrite Hlive.
  rewrite attempt_app, dist_call_handlers_attempt.
  apply and_then_ext. intros u'. apply dist_call_handlers_attempt.
Qed.



Lemma piped_build_call_listeners_deliver {U : Type}
  (listener : Callback → PipedBuild.EventEmitter → list Event → U
              → Completion unit * U)
  (x : Value) (this : PipedBuild.EventEmitter) (event : Event) (u : U) :
  PipedBuild.call_listeners listener x this event u
  = deliver listener this event (reverse (listeners x)) u.
Proof.
  destruct x as [[[f|a]|]|]; simpl; try reflexivity.
  - symmetry. apply and_then_done.
  - rewrite call_down_deliver by lia. rewrite firstn_all. reflexivity.
Qed.

Lemma piped_build_trigger_deliver {U : Type}
  (listener : Callback → PipedBuild.EventEmitter → list Event → U
              → Completion unit * U)
  (this : PipedBuild.EventEmitter) (obj : gmap string (option Handlers))
  (event : Event) (u : U) :
  PipedBuild._eventListeners this = Some obj →
  PipedBuild.triggerEvent listener this event u
  = deliver listener this event
      (reverse (listeners (get obj (type event)))
       ++ reverse (listeners (PipedBuild._pipedEventListeners this))) u.
Proof.
  intros Hlive. unfold PipedBuild.triggerEvent. rewrite Hlive.
  rewrite deliver_app, piped_build_call_listeners_deliver.
  apply and_then_ext. intros u'. apply piped_build_call_listeners_deliver.
Qed.


(** ** Reading and writing a registry slot *)

Lemma get_insert (obj : gmap string (option Handlers)) (k : string)
  (v : option Handlers) :
  get (<[k := v]> obj) k = v.
Proof. unfold get. rewrite lookup_insert_eq. reflexivity. Qed.

Lemma get_insert_other (obj : gmap string (option Handlers)) (k k' : string)
  (v : option Handlers) :
  k ≠ k' → get (<[k := v]> obj) k' = get obj k'.
Proof. intros Hne. unfold get. rewrite lookup_insert_ne by exact Hne. reflexivity. Qed.


(** An array is never inherited: it is an own property. *)
Lemma get_array_own (obj : gmap string (option Handlers)) (k : string)
  (a : list Callback) :
  get obj k = Some (Arr a) → obj !! k = Some (Some (Arr a)).
Proof.
  unfold get. destruct (obj !! k) as [v|].
  - intros H. injection H as ->. reflexivity.
  - unfold inherited. destruct (String.eqb k "__proto__"); [discriminate|].
    destruct (ObjectPrototype.member k); discriminate.
Qed.


(** Writing back the array a slot already holds changes nothing. *)
Lemma insert_same (obj : gmap string (option Handlers)) (k : string)
  (a : list Callback) :
  get obj k = Some (Arr a) → <[k := Some (Arr a)]> obj = obj.
Proof. intros Hget. apply insert_id. apply get_array_own. exact Hget. Qed.


Lemma emptied_not_prototype (x : Value) : emptied x → x ≠ Object_prototype.
Proof. intros [-> | ->]; discriminate. Qed.

Lemma emptied_single (x : Value) : emptied x → single_is_Function x.
Proof. intros [-> | ->] f Hf; discriminate Hf. Qed.

Lemma all_Function_app (fs gs : list Callback) :
  all_Function (fs ++ gs) ↔ all_Function fs ∧ all_Function gs.
Proof.
  unfold all_Function. split.
  - intros H. split; intros f Hf; apply H; apply elem_of_app; auto.
  - intros [Hf Hg] f Hin. apply elem_of_app in Hin. destruct Hin; auto.
Qed.

Lemma all_Function_cons (f : Callback) (fs : list Callback) :
  all_Function (f :: fs) ↔ constructor_is_Function f = true ∧ all_Function fs.
Proof.
  unfold all_Function. split.
  - intros H. split; [apply H; left|]. intros g Hg. apply H. right. exact Hg.
  - intros [Hf Hfs] g Hg. apply elem_of_cons in Hg. destruct Hg as [-> | Hg]; auto.
Qed.

(** ** dist/EventEmitter.js: the registry *)

Lemma dist_set_handler_same (this : Dist.EventEmitter)
  (obj : gmap string (option Handlers)) (type : string) (a : list Callback) :
  Dist._eventHandlers this = Some obj →
  get obj type = Some (Arr a) →
  Dist.set_handler this obj type (Some (Arr a)) = this.
Proof.
  intros Hlive Hget. unfold Dist.set_handler.
  rewrite (insert_same _ _ _ Hget). destruct this as [eh ph].
  simpl in *. rewrite Hlive. reflexivity.
Qed.

(** [addEventListener] appends to the listeners of its type and touches
    nothing else. *)
Lemma dist_add_appends (this : Dist.EventEmitter)
  (obj : gmap string (option Handlers)) (type : string) (callback : Callback) :
  Dist._eventHandlers this = Some obj →
  get obj type ≠ Object_prototype →
  single_is_Function (get obj type) →
  ∃ this' obj',
    Dist.addEventListener type callback this = Normal this'
    ∧ Dist._eventHandlers this' = Some obj'
    ∧ listeners (get obj' type) = listeners (get obj type) ++ [callback]
    ∧ (∀ k, type ≠ k → get obj' k = get obj k)
    ∧ Dist._pipedEventHandlers this' = Dist._pipedEventHandlers this
    ∧ get obj' type ≠ Object_prototype
    ∧ (constructor_is_Function callback = true
       → single_is_Function (get obj' type)).
Proof.
  intros Hlive Hobject Hsingle. unfold Dist.addEventListener. rewrite Hlive.
  destruct (get obj type) as [[[f|a]|]|] eqn:Hget;
    [rewrite (Hsingle f eq_refl) | | | destruct Hobject; reflexivity];
    eexists _, _; (split; [reflexivity|]); (split; [reflexivity|]);
    rewrite get_insert; (split; [reflexivity|]);
    (split; [intros k Hk; apply get_insert_other; exact Hk|]);
    (split; [reflexivity|]); (split; [discriminate|]);
    intros Hcb g Hg; try discriminate Hg.
  injection Hg as <-. exact Hcb.
Qed.


Lemma dist_count_listeners (this : Dist.EventEmitter)
  (obj : gmap string (option Handlers)) (type : string) :
  Dist._eventHandlers this = Some obj →
  get obj type ≠ Object_prototype →
  single_is_Function (get obj type) →
  Dist.getEventListenerCount type this
  = Normal (length (listeners (get obj type))).
Proof.
  intros Hlive Hobject Hsingle. unfold Dist.getEventListenerCount.
  rewrite Hlive.
  destruct (get obj type) as [[[f|a]|]|]; try reflexivity.
  - specialize (Hsingle f eq_refl). destruct f; [reflexivity | discriminate
                                                 | reflexivity].
  - destruct Hobject. reflexivity.
Qed.

(** [removeAllEventListeners] leaves no listener under its type, and a second
    call changes nothing more. *)
Lemma dist_remove_all_empties (this : Dist.EventEmitter)
  (obj : gmap string (option Handlers)) (type : string) :
  Dist._eventHandlers this = Some obj →
  get obj type ≠ Object_prototype →
  single_is_Function (get obj type) →
  ∃ this1 obj1,
    Dist.removeAllEventListeners type this = Normal this1
    ∧ Dist._eventHandlers this1 = Some obj1
    ∧ emptied (get obj1 type)
    ∧ Dist.removeAllEventListeners type this1 = Normal this1
    ∧ Dist._pipedEventHandlers this1 = Dist._pipedEventHandlers this.
Proof.
  intros Hlive Hobject Hsingle.
  unfold Dist.removeAllEventListeners at 1. rewrite Hlive.
  destruct (get obj type) as [[[f|a]|]|] eqn:Hget.
  - specialize (Hsingle f eq_refl).
    assert (Hreset :
              match f with
              | fn_other _ 0 => Normal this
              | fn_other _ (S _) => Throw TypeError
              | fn _ | member_fn _ =>
                  Normal (Dist.set_handler this obj type None)
              end = Normal (Dist.set_handler this obj type None)).
    { destruct f; [reflexivity | discriminate | reflexivity]. }
    rewrite Hreset.
    eexists _, _. split; [reflexivity|]. split; [reflexivity|].
    rewrite get_insert. split; [left; reflexivity|]. split; [|reflexivity].
    unfold Dist.removeAllEventListeners. simpl. rewrite get_insert.
    reflexivity.
  - eexists _, _. split; [reflexivity|]. split; [reflexivity|].
    rewrite get_insert, pop_while_empty. split; [right; reflexivity|].
    split; [|reflexivity].
    unfold Dist.removeAllEventListeners. simpl. rewrite get_insert.
    rewrite pop_while_empty. unfold Dist.set_handler. simpl.
    rewrite insert_insert_eq. reflexivity.
  - exists this, obj. rewrite Hget. split; [reflexivity|].
    split; [exact Hlive|]. split; [left; reflexivity|].
    split; [|reflexivity].
    unfold Dist.removeAllEventListeners. rewrite Hlive, Hget. reflexivity.
  - destruct Hobject. reflexivity.
Qed.

(** ** src/EventEmitter.js: the registry *)

Lemma src_set_listener_same (this : Src.EventEmitter)
  (obj : gmap string (option Handlers)) (type : string) (a : list Callback) :
  Src._eventListeners this = Some obj →
  get obj type = Some (Arr a) →
  Src.set_listener obj type (Some (Arr a)) = this.
Proof.
  intros Hlive Hget. unfold Src.set_listener.
  rewrite (insert_same _ _ _ Hget). destruct this as [el].
  simpl in *. rewrite Hlive. reflexivity.
Qed.





(** ** The piped build: the registry *)

Lemma piped_build_add_appends (this : PipedBuild.EventEmitter)
  (obj : gmap string (option Handlers)) (type : string) (callback : Callback) :
  PipedBuild._eventListeners this = Some obj →
  get obj type ≠ Object_prototype →
  ∃ this' obj',
    PipedBuild.addEventListener type callback this = Normal this'
    ∧ PipedBuild._eventListeners this' = Some obj'
    ∧ listeners (get obj' type) = listeners (get obj type) ++ [callback]
    ∧ PipedBuild._pipedEventListeners this'
      = PipedBuild._pipedEventListeners this
    ∧ get obj' type ≠ Object_prototype.
Proof.
  intros Hlive Hobject. unfold PipedBuild.addEventListener. rewrite Hlive.
  destruct (get obj type) as [[[f|a]|]|] eqn:Hget;
    [ | | | destruct Hobject; reflexivity];
    eexists _, _; (split; [reflexivity|]); (split; [reflexivity|]);
    rewrite get_insert; (split; [reflexivity|]);
    (split; [reflexivity | discriminate]).
Qed.

Lemma piped_build_add_all_appends (cbs : list Callback)
  (this : PipedBuild.EventEmitter) (obj : gmap string (option Handlers))
  (type : string) :
  PipedBuild._eventListeners this = Some obj →
  get obj type ≠ Object_prototype →
  ∃ this' obj',
    for_each (PipedBuild.addEventListener type) cbs this = Normal this'
    ∧ PipedBuild._eventListeners this' = Some obj'
    ∧ listeners (get obj' type) = listeners (get obj type) ++ cbs
    ∧ PipedBuild._pipedEventListeners this'
      = PipedBuild._pipedEventListeners this
    ∧ get obj' type ≠ Object_prototype.
Proof.
  revert this obj.
  induction cbs as [|cb cbs IH]; intros this obj Hlive Hobject; simpl.
  - exists this, obj. rewrite app_nil_r. repeat split; auto.
  - destruct (piped_build_add_appends this obj type cb Hlive Hobject)
      as (this1 & obj1 & Hadd & Hlive1 & Hl1 & Hp1 & Ho1).
    rewrite Hadd.
    destruct (IH this1 obj1 Hlive1 Ho1)
      as (this' & obj' & Hall & Hlive' & Hl & Hp & Ho).
    exists this', obj'. repeat split; auto.
    + rewrite Hl, Hl1, <- app_assoc. reflexivity.
    + rewrite Hp. exact Hp1.
Qed.

(** * The specified behaviour *)

(** ** Dispatch *)







(** C6. dist/EventEmitter.js, live emitter: let the walk over the value
    found under the event's type, followed by the walk over the pipe field,
    come to the functions [pre], then to [f]; let those of [pre] complete
    normally, and let [f] throw [x]. Then [triggerEvent] completes by
    throwing [x], in the state [f] left, having called [pre] and [f] and
    nothing of what comes after [f], be it under the same type or piped. *)
Theorem dist_trigger_stops_at_first_throw {U : Type}
  (listener : Callback → Dist.EventEmitter → list Event → U
              → Completion unit * U)
  (this : Dist.EventEmitter) (obj : gmap string (option Handlers))
  (event : Event) (pre : list Callback) (post : list (option Callback))
  (f : Callback) (x : Exception) (u u1 u2 : U) :
  Dist._eventHandlers this = Some obj →
  dist_targets (get obj (type event))
  ++ dist_targets (Dist._pipedEventHandlers this)
  = (Some <$> pre) ++ Some f :: post →
  runs listener this event pre u u1 →
  respond listener f this [event] u1 = (Throw x, u2) →
  Dist.triggerEvent listener this event u
  = {| invoked := map (invocation this event) (pre ++ [f]);
       completion := Throw x;
       state := u2 |}.
Proof.
  intros Hlive Hsplit Hruns Hthrow.
  rewrite (dist_trigger_attempt listener this obj event u Hlive), Hsplit.
  exact (attempt_throw listener this event pre post f x u u1 u2 Hruns Hthrow).
Qed.

Lemma dist_trigger_stops_at_first_throw_witness :
  Dist.triggerEvent Sample.faulty Sample.dist_two Sample.ev1 0
  = {| invoked := [invocation Sample.dist_two Sample.ev1 Sample.h1;
                   invocation Sample.dist_two Sample.ev1 Sample.h2];
       completion := Throw (Thrown 7);
       state := 1 |}.
Proof.
  apply (dist_trigger_stops_at_first_throw (U := nat) Sample.faulty
           Sample.dist_two {[ "count" := Some (Arr [Sample.h1; Sample.h2]) ]}
           Sample.ev1 [Sample.h1] [Some Sample.h3] Sample.h2 (Thrown 7) 0 1 1).
  - reflexivity.
  - reflexivity.
  - apply (runs_cons _ _ _ Sample.h1 [] 0 1 1); [reflexivity | apply runs_nil].
  - reflexivity.
Defined.




(** ** Removal of one listener *)

Lemma dist_remove_not_found (this : Dist.EventEmitter)
  (obj : gmap string (option Handlers)) (type : string) (callback : Callback) :
  Dist._eventHandlers this = Some obj →
  callback ∉ listeners (get obj type) →
  (∀ f, get obj type ≠ Some (Fn f)) →
  Dist.removeEventListener type callback this = Normal this.
Proof.
  intros Hlive Hnot Hmulti. unfold Dist.removeEventListener. rewrite Hlive.
  destruct (get obj type) as [[[f|a]|]|] eqn:Hget.
  - destruct (Hmulti f). reflexivity.
  - simpl in Hnot. rewrite scan_up_remove_first, remove_first_absent by exact Hnot.
    rewrite (dist_set_handler_same this obj type a Hlive Hget).
    reflexivity.
  - reflexivity.
  - reflexivity.
Qed.

Lemma src_remove_not_found (this : Src.EventEmitter)
  (obj : gmap string (option Handlers)) (type : string) (callback : Callback) :
  Src._eventListeners this = Some obj →
  callback ∉ listeners (get obj type) →
  (∀ f, get obj type ≠ Some (Fn f)) →
  Src.removeEventListener type callback this = Normal this.
Proof.
  intros Hlive Hnot Hmulti. unfold Src.removeEventListener. rewrite Hlive.
  destruct (get obj type) as [[[f|a]|]|] eqn:Hget.
  - destruct (Hmulti f). reflexivity.
  - simpl in Hnot. rewrite scan_down_absent by exact Hnot.
    rewrite (src_set_listener_same this obj type a Hlive Hget).
    reflexivity.
  - reflexivity.
  - reflexivity.
Qed.

(** dist/EventEmitter.js: in an array the first match from the front is
    the one removed, and the count drops by one. *)
Lemma dist_remove_first_match (this : Dist.EventEmitter)
  (obj : gmap string (option Handlers)) (type : string) (callback : Callback)
  (pre post : list Callback) :
  Dist._eventHandlers this = Some obj →
  get obj type = Some (Arr (pre ++ callback :: post)) →
  callback ∉ pre →
  Dist.removeEventListener type callback this
  = Normal (Dist.set_handler this obj type (Some (Arr (pre ++ post))))
  ∧ Dist.getEventListenerCount type this
    = Normal (S (length (pre ++ post)))
  ∧ Dist.getEventListenerCount type
      (Dist.set_handler this obj type (Some (Arr (pre ++ post))))
    = Normal (length (pre ++ post)).
Proof.
  intros Hlive Hget Hpre. split; [|split].
  - unfold Dist.removeEventListener. rewrite Hlive, Hget.
    rewrite scan_up_remove_first, remove_first_middle by exact Hpre.
    reflexivity.
  - unfold Dist.getEventListenerCount. rewrite Hlive, Hget.
    rewrite !length_app. simpl. do 2 f_equal. lia.
  - unfold Dist.getEventListenerCount. simpl. rewrite get_insert. reflexivity.
Qed.

(** dist/EventEmitter.js: a slot that holds a single function whose
    [constructor] is [Function] is reset to [undefined] without the function
    being compared with the callback; any other single function stays. *)
Lemma dist_remove_single (this : Dist.EventEmitter)
  (obj : gmap string (option Handlers)) (type : string)
  (callback f : Callback) :
  Dist._eventHandlers this = Some obj →
  get obj type = Some (Fn f) →
  Dist.removeEventListener type callback this
  = (if constructor_is_Function f
     then Normal (Dist.set_handler this obj type None)
     else Normal this)
  ∧ Dist.getEventListenerCount type (Dist.set_handler this obj type None)
    = Normal 0.
Proof.
  intros Hlive Hget. split.
  - unfold Dist.removeEventListener. rewrite Hlive, Hget. reflexivity.
  - unfold Dist.getEventListenerCount. simpl. rewrite get_insert. reflexivity.
Qed.

(** src/EventEmitter.js: a slot that holds a single function is reset. *)
Lemma src_remove_single (this : Src.EventEmitter)
  (obj : gmap string (option Handlers)) (type : string)
  (callback f : Callback) :
  Src._eventListeners this = Some obj →
  get obj type = Some (Fn f) →
  Src.removeEventListener type callback this
  = Normal (Src.set_listener obj type None)
  ∧ Src.getEventListenerCount type (Src.set_listener obj type None)
    = Normal 0.
Proof.
  intros Hlive Hget. split.
  - unfold Src.removeEventListener. rewrite Hlive, Hget. reflexivity.
  - unfold Src.getEventListenerCount. simpl. rewrite get_insert. reflexivity.
Qed.

(** The downward scan of src/EventEmitter.js never takes out index 0. *)
Lemma scan_down_keeps_head (i : nat) (callback x : Callback)
  (rest : list Callback) :
  ∃ rest', scan_down i callback (x :: rest) = x :: rest'.
Proof.
  induction i as [|i IH]; simpl.
  - exists rest. reflexivity.
  - destruct (decide (rest !! i = Some callback)).
    + eexists. unfold splice. simpl. reflexivity.
    + exact IH.
Qed.

(** C3, as amended. Both revisions, live emitter, [callback] not among the
    functions found under [type]: when the lookup of [type] gives
    [undefined], an array or [Object.prototype] itself,
    [removeEventListener] completes normally and leaves the emitter as it
    was. When it gives a single function (a registered one, or one inherited
    from [Object.prototype]), the slot is set to [undefined] and the count
    drops to 0, whatever [callback] is; in dist/EventEmitter.js this holds
    for a function whose [constructor] is [Function], and any other single
    function stays where it is. *)
Theorem remove_unregistered_keeps_arrays_and_resets_single_slot
  (d : Dist.EventEmitter) (dobj : gmap string (option Handlers))
  (s : Src.EventEmitter) (sobj : gmap string (option Handlers))
  (type : string) (callback : Callback) :
  Dist._eventHandlers d = Some dobj →
  Src._eventListeners s = Some sobj →
  callback ∉ listeners (get dobj type) →
  callback ∉ listeners (get sobj type) →
  ((∀ f, get dobj type ≠ Some (Fn f)) →
   Dist.removeEventListener type callback d = Normal d)
  ∧ ((∀ f, get sobj type ≠ Some (Fn f)) →
     Src.removeEventListener type callback s = Normal s)
  ∧ (∀ f, get dobj type = Some (Fn f) →
       constructor_is_Function f = true →
       Dist.removeEventListener type callback d
       = Normal (Dist.set_handler d dobj type None)
       ∧ Dist.getEventListenerCount type (Dist.set_handler d dobj type None)
         = Normal 0)
  ∧ (∀ f, get dobj type = Some (Fn f) →
       constructor_is_Function f = false →
       Dist.removeEventListener type callback d = Normal d)
  ∧ (∀ f, get sobj type = Some (Fn f) →
       Src.removeEventListener type callback s
       = Normal (Src.set_listener sobj type None)
       ∧ Src.getEventListenerCount type (Src.set_listener sobj type None)
         = Normal 0).
Proof.
  intros Hd Hs Hnd Hns. split; [|split; [|split; [|split]]].
  - intros Hmulti. apply (dist_remove_not_found d dobj); assumption.
  - intros Hmulti. apply (src_remove_not_found s sobj); assumption.
  - intros f Hget Hf.
    destruct (dist_remove_single d dobj type callback f Hd Hget) as [Hrem Hc].
    rewrite Hf in Hrem. split; assumption.
  - intros f Hget Hf.
    destruct (dist_remove_single d dobj type callback f Hd Hget) as [Hrem _].
    rewrite Hf in Hrem. exact Hrem.
  - intros f Hget. apply (src_remove_single s sobj type callback f); assumption.
Qed.

Lemma remove_unregistered_witness :
  Dist.removeEventListener "count" Sample.h3 Sample.dist_two
  = Normal Sample.dist_two
  ∧ Src.removeEventListener "count" Sample.h3 Sample.src_two
    = Normal Sample.src_two.
Proof.
  destruct (remove_unregistered_keeps_arrays_and_resets_single_slot
              Sample.dist_two {[ "count" := Some (Arr [Sample.h1; Sample.h2]) ]}
              Sample.src_two {[ "count" := Some (Arr [Sample.h1; Sample.h2]) ]}
              "count" Sample.h3 eq_refl eq_refl)
    as (Hdist & Hsrc & _).
  - vm_compute. intros H. each_element H; discriminate H.
  - vm_compute. intros H. each_element H; discriminate H.
  - split.
    + apply Hdist. intros f. by_reading.
    + apply Hsrc. intros f. by_reading.
Defined.

(** C3 as stated fails in the single-listener state, in both revisions: with
    only [h1] registered for 'count', removing the unregistered [h2] resets
    the slot and the count goes from 1 to 0. The test suite expects exactly
    this ("Resets event handlers for an event back to undefined on one
    listener available"). *)
Lemma remove_of_other_callback_clears_single_slot :
  (Sample.h2 ∉ listeners (Some (Fn Sample.h1)))
  ∧ Dist.getEventListenerCount "count" Sample.dist_one = Normal 1
  ∧ (∃ this,
       Dist.removeEventListener "count" Sample.h2 Sample.dist_one = Normal this
       ∧ this ≠ Sample.dist_one
       ∧ Dist._eventHandlers this = Some {[ "count" := None ]}
       ∧ Dist.getEventListenerCount "count" this = Normal 0)
  ∧ (∃ this,
       Src.removeEventListener "count" Sample.h2 Sample.src_one = Normal this
       ∧ this ≠ Sample.src_one
       ∧ Src._eventListeners this = Some {[ "count" := None ]}
       ∧ Src.getEventListenerCount "count" this = Normal 0).
Proof.
  split; [|split; [|split]].
  - simpl. rewrite list_elem_of_singleton. discriminate.
  - reflexivity.
  - eexists. split; [reflexivity|]. split; [|split].
    + intros H. apply (f_equal (Dist.getEventListenerCount "count")) in H.
      vm_compute in H. discriminate H.
    + vm_compute. reflexivity.
    + vm_compute. reflexivity.
  - eexists. split; [reflexivity|]. split; [|split].
    + intros H. apply (f_equal (Src.getEventListenerCount "count")) in H.
      vm_compute in H. discriminate H.
    + vm_compute. reflexivity.
    + vm_compute. reflexivity.
Qed.

(** C4 at its failing input. src/EventEmitter.js (and its compiled twin):
    with [[h1, h2]] registered for 'count', [removeEventListener('count', h1)]
    removes nothing, and the count stays 2. The scan starts at
    [i = length] and stops before index 0, where [h1] is. On the same input
    dist/EventEmitter.js removes [h1] and the count becomes 1. *)
Theorem src_remove_misses_callback_at_index_0 :
  (Sample.h1 ∈ [Sample.h1; Sample.h2])
  ∧ Src.getEventListenerCount "count" Sample.src_two = Normal 2
  ∧ Src.removeEventListener "count" Sample.h1 Sample.src_two
    = Normal Sample.src_two
  ∧ (∃ this,
       Dist.removeEventListener "count" Sample.h1 Sample.dist_two = Normal this
       ∧ Dist._eventHandlers this
         = Some {[ "count" := Some (Arr [Sample.h2]) ]}
       ∧ Dist.getEventListenerCount "count" this = Normal 1).
Proof.
  split; [|split; [|split]].
  - left.
  - reflexivity.
  - vm_compute. reflexivity.
  - eexists. split; [reflexivity|]. split; vm_compute; reflexivity.
Qed.

(** ** Counting, and removing everything *)







(** ** Pooling *)




(** ** The scan of src/EventEmitter.js *)

(** C10. src/EventEmitter.js:139-158 and its compiled twin: in an array the
    scan reads [arr[length]] down to [arr[1]]. When the only occurrence of
    the callback is at index 0, [removeEventListener] leaves the emitter as
    it was; and whatever the callback, the element at index 0 stays first. *)
Theorem src_remove_never_reaches_index_0
  (this : Src.EventEmitter) (obj : gmap string (option Handlers))
  (type_ : string) (callback : Callback) (rest : list Callback) :
  Src._eventListeners this = Some obj →
  get obj type_ = Some (Arr (callback :: rest)) →
  callback ∉ rest →
  Src.removeEventListener type_ callback this = Normal this
  ∧ Src.getEventListenerCount type_ this = Normal (S (length rest))
  ∧ ∀ other, ∃ rest',
      Src.removeEventListener type_ other this
      = Normal (Src.set_listener obj type_ (Some (Arr (callback :: rest')))).
Proof.
  intros Hlive Hget Hnot. split; [|split].
  - unfold Src.removeEventListener. rewrite Hlive, Hget.
    rewrite (scan_down_only_at_0 callback rest Hnot).
    rewrite (src_set_listener_same this obj type_ _ Hlive Hget). reflexivity.
  - unfold Src.getEventListenerCount. rewrite Hlive, Hget. reflexivity.
  - intros other. unfold Src.removeEventListener. rewrite Hlive, Hget.
    destruct (scan_down_keeps_head (length (callback :: rest)) other callback
                rest) as [rest' Hscan].
    exists rest'. rewrite Hscan. reflexivity.
Qed.

Lemma src_remove_never_reaches_index_0_witness :
  Src.removeEventListener "count" Sample.h1 Sample.src_two
  = Normal Sample.src_two
  ∧ Src.getEventListenerCount "count" Sample.src_two = Normal 2.
Proof.
  destruct (src_remove_never_reaches_index_0 Sample.src_two
              {[ "count" := Some (Arr [Sample.h1; Sample.h2]) ]}
              "count" Sample.h1 [Sample.h2] eq_refl eq_refl)
    as (Hsame & Hcount & _).
  - rewrite list_elem_of_singleton. discriminate.
  - split; [exact Hsame | exact Hcount].
Defined.

(** ** The scenario of the test suite *)

(** [handler1] registered once: one trigger leaves the counter at 1;
    registered twice: at 2. *)
Example dist_count_scenario :
  (∃ this,
     for_each (Dist.addEventListener "count") [Sample.h1] Dist.constructor
     = Normal this
     ∧ state (Dist.triggerEvent Sample.counting this Sample.ev1 0) = 1)
  ∧ (∃ this,
       for_each (Dist.addEventListener "count") [Sample.h1; Sample.h1]
         Dist.constructor = Normal this
       ∧ state (Dist.triggerEvent Sample.counting this Sample.ev1 0) = 2).
Proof.
  split; eexists; (split; [vm_compute; reflexivity|]); vm_compute; reflexivity.
Qed.

(** * Further properties of the code *)

(** ** dist/EventEmitter.js: the pipe channel *)

Lemma dist_piped_count (this : Dist.EventEmitter) :
  single_is_Function (Dist._pipedEventHandlers this) →
  Dist.getPipedEventListenerCount this
  = length (listeners (Dist._pipedEventHandlers this)).
Proof.
  intros Hsingle. unfold Dist.getPipedEventListenerCount.
  destruct (Dist._pipedEventHandlers this) as [[f|a]|]; try reflexivity.
  specialize (Hsingle f eq_refl). destruct f; [reflexivity | discriminate
                                               | reflexivity].
Qed.

Lemma dist_pipe_appends (callback : Callback) (this : Dist.EventEmitter) :
  single_is_Function (Dist._pipedEventHandlers this) →
  ∃ this',
    Dist.pipe callback this = Normal this'
    ∧ listeners (Dist._pipedEventHandlers this')
      = listeners (Dist._pipedEventHandlers this) ++ [callback]
    ∧ Dist._eventHandlers this' = Dist._eventHandlers this
    ∧ (constructor_is_Function callback = true
       → single_is_Function (Dist._pipedEventHandlers this')).
Proof.
  intros Hsingle. unfold Dist.pipe.
  destruct (Dist._pipedEventHandlers this) as [[f|a]|];
    [rewrite (Hsingle f eq_refl) | |];
    eexists; (split; [reflexivity|]); (split; [reflexivity|]);
    (split; [reflexivity|]); intros Hcb g Hg; try discriminate Hg.
  injection Hg as <-. exact Hcb.
Qed.

Lemma dist_pipe_all_appends (cbs : list Callback) (this : Dist.EventEmitter) :
  single_is_Function (Dist._pipedEventHandlers this) →
  all_Function cbs →
  ∃ this',
    for_each Dist.pipe cbs this = Normal this'
    ∧ listeners (Dist._pipedEventHandlers this')
      = listeners (Dist._pipedEventHandlers this) ++ cbs
    ∧ Dist._eventHandlers this' = Dist._eventHandlers this
    ∧ single_is_Function (Dist._pipedEventHandlers this').
Proof.
  revert this. induction cbs as [|cb cbs IH]; intros this Hsingle Hall;
    cbn [for_each].
  - exists this. rewrite app_nil_r. repeat split; auto.
  - apply all_Function_cons in Hall. destruct Hall as [Hcb Hall].
    destruct (dist_pipe_appends cb this Hsingle)
      as (this1 & Hpipe & Hl1 & Hr1 & Hs1).
    rewrite Hpipe.
    destruct (IH this1 (Hs1 Hcb) Hall) as (this' & Hrun & Hl & Hr & Hs).
    exists this'. split; [exact Hrun|]. split; [|split; [|exact Hs]].
    + rewrite Hl, Hl1, <- app_assoc. reflexivity.
    + rewrite Hr. exact Hr1.
Qed.

(** X1. dist/EventEmitter.js: [pipe] called for each function of [cbs] in
    turn, where these functions and a function piped alone before have
    [Function] as their [constructor], appends them, in that order, to the
    piped listeners; the piped count grows by their number; the typed
    registry is not touched (it may even be disposed). *)
Theorem dist_pipe_appends_in_order (cbs : list Callback)
  (this : Dist.EventEmitter) :
  single_is_Function (Dist._pipedEventHandlers this) →
  all_Function cbs →
  ∃ this',
    for_each Dist.pipe cbs this = Normal this'
    ∧ listeners (Dist._pipedEventHandlers this')
      = listeners (Dist._pipedEventHandlers this) ++ cbs
    ∧ Dist.getPipedEventListenerCount this'
      = Dist.getPipedEventListenerCount this + length cbs
    ∧ Dist._eventHandlers this' = Dist._eventHandlers this.
Proof.
  intros Hsingle Hall.
  destruct (dist_pipe_all_appends cbs this Hsingle Hall)
    as (this' & Hrun & Hl & Hr & Hs).
  exists this'. split; [exact Hrun|]. split; [exact Hl|]. split; [|exact Hr].
  rewrite (dist_piped_count this' Hs), (dist_piped_count this Hsingle).
  rewrite Hl, length_app. reflexivity.
Qed.

Lemma dist_pipe_appends_in_order_witness :
  ∃ this',
    for_each Dist.pipe [Sample.h1; Sample.h2] Sample.dist_two = Normal this'
    ∧ listeners (Dist._pipedEventHandlers this')
      = [Sample.h3; Sample.h1; Sample.h2]
    ∧ Dist.getPipedEventListenerCount this' = 3.
Proof.
  destruct (dist_pipe_appends_in_order [Sample.h1; Sample.h2] Sample.dist_two)
    as (this' & Hrun & Hl & Hc & _).
  - by_reading.
  - intros f Hf. each_element Hf; reflexivity.
  - exists this'. split; [exact Hrun|]. split; [exact Hl | exact Hc].
Defined.

(** X2. dist/EventEmitter.js: when the piped listeners are an array,
    [unpipe] takes out the first element equal to the callback, counting from
    the front, and nothing else; the piped count drops by one. *)
Theorem dist_unpipe_removes_first_match (this : Dist.EventEmitter)
  (callback : Callback) (pre post : list Callback) :
  Dist._pipedEventHandlers this = Some (Arr (pre ++ callback :: post)) →
  callback ∉ pre →
  Dist.unpipe callback this
  = Dist.set_piped this (Some (Arr (pre ++ post)))
  ∧ S (Dist.getPipedEventListenerCount (Dist.unpipe callback this))
    = Dist.getPipedEventListenerCount this
  ∧ Dist._eventHandlers (Dist.unpipe callback this) = Dist._eventHandlers this.
Proof.
  intros Hpiped Hpre.
  assert (Hun : Dist.unpipe callback this
                = Dist.set_piped this (Some (Arr (pre ++ post)))).
  { unfold Dist.unpipe. rewrite Hpiped.
    rewrite scan_up_remove_first, remove_first_middle by exact Hpre.
    reflexivity. }
  rewrite Hun. split; [reflexivity|]. split; [|reflexivity].
  unfold Dist.getPipedEventListenerCount. rewrite Hpiped. simpl.
  rewrite !length_app. simpl. lia.
Qed.

Lemma dist_unpipe_removes_first_match_witness :
  Dist._pipedEventHandlers (Dist.unpipe Sample.h1 Sample2.dist_piped)
  = Some (Arr [Sample.h2; Sample.h1])
  ∧ Dist.getPipedEventListenerCount (Dist.unpipe Sample.h1 Sample2.dist_piped)
    = 2.
Proof.
  destruct (dist_unpipe_removes_first_match Sample2.dist_piped Sample.h1
              [] [Sample.h2; Sample.h1] eq_refl) as (Hun & Hcount & _).
  - apply not_elem_of_nil.
  - rewrite Hun. split; reflexivity.
Defined.

(** X3. dist/EventEmitter.js: [unpipe] of a function that is not piped
    leaves the emitter as it is when the pipe field is [null] or an array.
    When the field holds a single function whose [constructor] is
    [Function], that function is dropped without being compared with the
    callback; any other single function stays piped. *)
Theorem dist_unpipe_unregistered (this : Dist.EventEmitter)
  (callback : Callback) :
  callback ∉ listeners (Dist._pipedEventHandlers this) →
  ((∀ f, Dist._pipedEventHandlers this ≠ Some (Fn f)) →
   Dist.unpipe callback this = this)
  ∧ (∀ f, Dist._pipedEventHandlers this = Some (Fn f) →
       constructor_is_Function f = true →
       Dist.unpipe callback this = Dist.set_piped this None
       ∧ Dist.getPipedEventListenerCount (Dist.unpipe callback this) = 0)
  ∧ (∀ f, Dist._pipedEventHandlers this = Some (Fn f) →
       constructor_is_Function f = false →
       Dist.unpipe callback this = this).
Proof.
  intros Hnot. split; [|split].
  - intros Hmulti. unfold Dist.unpipe.
    destruct (Dist._pipedEventHandlers this) as [[f|a]|] eqn:Hp.
    + destruct (Hmulti f). reflexivity.
    + simpl in Hnot.
      rewrite scan_up_remove_first, remove_first_absent by exact Hnot.
      destruct this as [eh ph]. simpl in Hp. subst ph. reflexivity.
    + reflexivity.
  - intros f Hp Hf. unfold Dist.unpipe. rewrite Hp, Hf. split; reflexivity.
  - intros f Hp Hf. unfold Dist.unpipe. rewrite Hp, Hf. reflexivity.
Qed.

Lemma dist_unpipe_unregistered_witness :
  Dist.unpipe Sample.h3 Sample2.dist_piped = Sample2.dist_piped
  ∧ Dist._pipedEventHandlers (Dist.unpipe Sample.h1 Sample.dist_two) = None
  ∧ Dist.unpipe Sample.h1 Sample3.dist_async_piped = Sample3.dist_async_piped.
Proof.
  split; [|split].
  - destruct (dist_unpipe_unregistered Sample2.dist_piped Sample.h3)
      as [Hsame _].
    + vm_compute. intros H. each_element H; discriminate H.
    + apply Hsame. intros f. by_reading.
  - destruct (dist_unpipe_unregistered Sample.dist_two Sample.h1)
      as (_ & Hdrop & _).
    + vm_compute. intros H. each_element H; discriminate H.
    + destruct (Hdrop Sample.h3 eq_refl eq_refl) as [Hun _]. rewrite Hun.
      reflexivity.
  - destruct (dist_unpipe_unregistered Sample3.dist_async_piped Sample.h1)
      as (_ & _ & Hstays).
    + vm_compute. intros H. each_element H; discriminate H.
    + exact (Hstays Sample3.a1 eq_refl eq_refl).
Defined.

(** X4. dist/EventEmitter.js: unless the pipe field holds a single function
    with parameters whose [constructor] is not [Function], [unpipeAll]
    completes normally and leaves no piped listener, and a second call
    changes nothing more; the typed registry is not touched; on a live
    emitter a later trigger is exactly the walk over what the event's type
    is found to hold. *)
Theorem dist_unpipe_all_silences_pipes {U : Type}
  (listener : Callback → Dist.EventEmitter → list Event → U
              → Completion unit * U)
  (this : Dist.EventEmitter) :
  (∀ id n, Dist._pipedEventHandlers this ≠ Some (Fn (fn_other id (S n)))) →
  ∃ this1,
    Dist.unpipeAll this = Normal this1
    ∧ Dist.unpipeAll this1 = Normal this1
    ∧ Dist.getPipedEventListenerCount this1 = 0
    ∧ Dist._eventHandlers this1 = Dist._eventHandlers this
    ∧ ∀ obj event u,
        Dist._eventHandlers this = Some obj →
        Dist.triggerEvent listener this1 event u
        = Dist.call_handlers listener (get obj (type event)) this1 event u.
Proof.
  intros Harity.
  assert (Hwalk : ∀ this1 : Dist.EventEmitter,
             dist_targets (Dist._pipedEventHandlers this1) = [] →
             ∀ obj event u,
               Dist._eventHandlers this1 = Some obj →
               Dist.triggerEvent listener this1 event u
               = Dist.call_handlers listener (get obj (type event)) this1
                   event u).
  { intros this1 Hnone obj event u Hlive. unfold Dist.triggerEvent.
    rewrite Hlive.
    rewrite <- (and_then_done
                  (Dist.call_handlers listener (get obj (type event))
                     this1 event u)) at 2.
    apply and_then_ext. intros u'.
    rewrite dist_call_handlers_attempt, Hnone. reflexivity. }
  destruct this as [eh [[[id | id [|n] | m]|a]|]];
    try (destruct (Harity id n); reflexivity);
    eexists; (split; [reflexivity|]);
    (split; [unfold Dist.unpipeAll, Dist.set_piped; simpl;
             rewrite ?pop_while_empty; reflexivity|]);
    (split; [unfold Dist.getPipedEventListenerCount; simpl;
             rewrite ?pop_while_empty; reflexivity|]);
    (split; [reflexivity|]);
    intros obj event u Hlive; apply Hwalk;
    simpl; rewrite ?pop_while_empty; try reflexivity; exact Hlive.
Qed.

Lemma dist_unpipe_all_silences_pipes_witness :
  ∃ this1,
    Dist.unpipeAll Sample.dist_two = Normal this1
    ∧ map callee
        (invoked (Dist.triggerEvent Sample.counting this1 Sample.ev1 0))
      = [Sample.h1; Sample.h2].
Proof.
  destruct (dist_unpipe_all_silences_pipes (U := nat) Sample.counting
              Sample.dist_two) as (this1 & Hun & _ & _ & _ & Htrigger).
  - intros id n. by_reading.
  - exists this1. split; [exact Hun|].
    rewrite (Htrigger {[ "count" := Some (Arr [Sample.h1; Sample.h2]) ]}
               Sample.ev1 0 eq_refl).
    vm_compute in Hun. injection Hun as <-. reflexivity.
Defined.

(** ** dist/EventEmitter.js: pooling *)

(** X5. dist/EventEmitter.js and src/EventEmitter.js: once [dispose()] has
    run, every method that reads the registry completes by throwing a
    [TypeError]: the four registry methods, and [triggerEvent], which throws
    before any listener is called, also when functions whose [constructor]
    is [Function] are piped onto the disposed emitter afterwards. [init()]
    after [dispose()] gives the state of a new emitter. *)
Theorem use_after_dispose_throws {U : Type}
  (dl : Callback → Dist.EventEmitter → list Event → U → Completion unit * U)
  (sl : Callback → Src.EventEmitter → list Event → U → Completion unit * U)
  (d : Dist.EventEmitter) (s : Src.EventEmitter) (cbs : list Callback)
  (type_ : string) (callback : Callback) (event : Event) (u : U) :
  all_Function cbs →
  (∃ dead,
     for_each Dist.pipe cbs (Dist.dispose d) = Normal dead
     ∧ Dist.addEventListener type_ callback dead = Throw TypeError
     ∧ Dist.removeEventListener type_ callback dead = Throw TypeError
     ∧ Dist.removeAllEventListeners type_ dead = Throw TypeError
     ∧ Dist.getEventListenerCount type_ dead = Throw TypeError
     ∧ Dist.triggerEvent dl dead event u
       = {| invoked := []; completion := Throw TypeError; state := u |}
     ∧ Dist.getPipedEventListenerCount dead = length cbs
     ∧ Dist.init (Dist.dispose d) = Dist.constructor)
  ∧ (Src.addEventListener type_ callback (Src.dispose s) = Throw TypeError
     ∧ Src.removeEventListener type_ callback (Src.dispose s) = Throw TypeError
     ∧ Src.removeAllEventListeners type_ (Src.dispose s) = Throw TypeError
     ∧ Src.getEventListenerCount type_ (Src.dispose s) = Throw TypeError
     ∧ Src.triggerEvent sl (Src.dispose s) event u
       = {| invoked := []; completion := Throw TypeError; state := u |}
     ∧ Src.init (Src.dispose s) = Src.constructor).
Proof.
  intros Hall.
  assert (Hnone : single_is_Function
                    (Dist._pipedEventHandlers (Dist.dispose d))).
  { intros f Hf. discriminate Hf. }
  destruct (dist_pipe_all_appends cbs (Dist.dispose d) Hnone Hall)
    as (dead & Hrun & Hl & Hreg & Hs).
  change (Dist._eventHandlers dead = None) in Hreg.
  change (listeners (Dist._pipedEventHandlers dead) = cbs) in Hl.
  split.
  - exists dead. split; [exact Hrun|].
    unfold Dist.addEventListener, Dist.removeEventListener,
      Dist.removeAllEventListeners, Dist.getEventListenerCount,
      Dist.triggerEvent.
    rewrite Hreg, (dist_piped_count dead Hs), Hl. repeat split.
  - repeat split.
Qed.

Lemma use_after_dispose_throws_witness :
  ∃ dead,
    for_each Dist.pipe [Sample.h1; Sample.h2] (Dist.dispose Sample.dist_two)
    = Normal dead
    ∧ Dist.triggerEvent Sample.counting dead Sample.ev1 0
      = {| invoked := []; completion := Throw TypeError; state := 0 |}
    ∧ Dist.getPipedEventListenerCount dead = 2.
Proof.
  destruct (use_after_dispose_throws (U := nat) Sample.counting Sample.counting
              Sample.dist_two Sample.src_two [Sample.h1; Sample.h2]
              "count" Sample.h1 Sample.ev1 0)
    as [(dead & Hrun & _ & _ & _ & _ & Htrigger & Hcount & _) _].
  - intros f Hf. each_element Hf; reflexivity.
  - exists dead. split; [exact Hrun|]. split; [exact Htrigger | exact Hcount].
Defined.

(** ** dist/EventEmitter.js: sequences of registry calls *)

(** What one call does to the slot of its own type, to the other slots and
    to the pipes. *)
Lemma dist_invoke_step (m : Method) (this : Dist.EventEmitter)
  (obj : gmap string (option Handlers)) :
  Dist._eventHandlers this = Some obj →
  get obj (method_type m) ≠ Object_prototype →
  single_is_Function (get obj (method_type m)) →
  all_Function (added [m]) →
  ∃ this' obj',
    dist_invoke m this = Normal this'
    ∧ Dist._eventHandlers this' = Some obj'
    ∧ (∀ k, method_type m ≠ k → get obj' k = get obj k)
    ∧ Dist._pipedEventHandlers this' = Dist._pipedEventHandlers this
    ∧ get obj' (method_type m) ≠ Object_prototype
    ∧ single_is_Function (get obj' (method_type m))
    ∧ (∀ a, get obj (method_type m) = Some (Arr a) →
         ∃ a', get obj' (method_type m) = Some (Arr a')).
Proof.
  intros Hlive Hobject Hsingle Hadded.
  destruct m as [t cb | t cb | t]; simpl in *.
  - assert (Hcb : constructor_is_Function cb = true).
    { apply Hadded. left. }
    destruct (dist_add_appends this obj t cb Hlive Hobject Hsingle)
      as (this' & obj' & Hadd & Hlive' & Hl & Hk & Hp & Ho & Hs).
    exists this', obj'. repeat split; auto.
    intros a Ha. revert Hadd. unfold Dist.addEventListener.
    rewrite Hlive, Ha. intros Hadd. injection Hadd as <-.
    simpl in Hlive'. injection Hlive' as <-. rewrite get_insert.
    eexists. reflexivity.
  - unfold Dist.removeEventListener. rewrite Hlive.
    destruct (get obj t) as [[[f|a]|]|] eqn:Hget.
    + rewrite (Hsingle f eq_refl).
      eexists _, _. split; [reflexivity|]. split; [reflexivity|].
      split; [intros k Hk; apply get_insert_other; exact Hk|].
      split; [reflexivity|]. rewrite get_insert.
      split; [discriminate|]. split; [intros g Hg; discriminate Hg|].
      intros a Ha. discriminate Ha.
    + eexists _, _. split; [reflexivity|]. split; [reflexivity|].
      split; [intros k Hk; apply get_insert_other; exact Hk|].
      split; [reflexivity|]. rewrite get_insert.
      split; [discriminate|]. split; [intros g Hg; discriminate Hg|].
      intros a0 _. eexists. reflexivity.
    + exists this, obj. rewrite Hget.
      repeat split; auto; try discriminate; intros ? H; discriminate H.
    + destruct Hobject. reflexivity.
  - destruct (dist_remove_all_empties this obj t Hlive Hobject Hsingle)
      as (this1 & obj1 & Hrem & Hlive1 & Hempty & _ & Hp).
    exists this1, obj1. split; [exact Hrem|]. split; [exact Hlive1|].
    split.
    { intros k Hk. revert Hrem. unfold Dist.removeAllEventListeners.
      rewrite Hlive.
      destruct (get obj t) as [[[f|a]|]|] eqn:Hget.
      - specialize (Hsingle f eq_refl).
        destruct f; try discriminate Hsingle; intros Hrem;
          injection Hrem as <-; simpl in Hlive1; injection Hlive1 as <-;
          apply get_insert_other; exact Hk.
      - intros Hrem. injection Hrem as <-. simpl in Hlive1.
        injection Hlive1 as <-. apply get_insert_other. exact Hk.
      - intros Hrem. injection Hrem as <-. rewrite Hlive in Hlive1.
        injection Hlive1 as <-. reflexivity.
      - destruct Hobject. reflexivity. }
    split; [exact Hp|].
    split; [exact (emptied_not_prototype _ Hempty)|].
    split; [exact (emptied_single _ Hempty)|].
    intros a Ha. revert Hrem. unfold Dist.removeAllEventListeners.
    rewrite Hlive, Ha. intros Hrem. injection Hrem as <-.
    simpl in Hlive1. injection Hlive1 as <-. rewrite get_insert.
    eexists. reflexivity.
Qed.

Lemma added_cons (m : Method) (ms : list Method) :
  added (m :: ms) = added [m] ++ added ms.
Proof. unfold added. simpl. rewrite app_nil_r. reflexivity. Qed.

(** The slots that a list of calls names hold what the methods of
    dist/EventEmitter.js can work on. *)
Lemma dist_invoke_keeps_slots (m : Method) (ms : list Method)
  (obj obj' : gmap string (option Handlers)) :
  (∀ k, method_type m ≠ k → get obj' k = get obj k) →
  get obj' (method_type m) ≠ Object_prototype →
  single_is_Function (get obj' (method_type m)) →
  (∀ m', m' ∈ m :: ms →
     get obj (method_type m') ≠ Object_prototype
     ∧ single_is_Function (get obj (method_type m'))) →
  ∀ m', m' ∈ ms →
    get obj' (method_type m') ≠ Object_prototype
    ∧ single_is_Function (get obj' (method_type m')).
Proof.
  intros Hk Ho Hs Hslots m' Hm'.
  destruct (decide (method_type m = method_type m')) as [Heq | Hne].
  - rewrite <- Heq. split; assumption.
  - rewrite (Hk _ Hne). apply Hslots. right. exact Hm'.
Qed.

(** X6. dist/EventEmitter.js: a sequence of [addEventListener],
    [removeEventListener] and [removeAllEventListeners] calls on a live
    emitter completes normally and leaves the emitter live and its pipes as
    they were, when the functions added, and a function held alone by a slot
    that is named, have [Function] as their [constructor], and no lookup of
    a type that is named ends at [Object.prototype] itself. The value and
    the count of a type that none of the calls names are unchanged. *)
Theorem dist_registry_calls_keep_other_types (ms : list Method)
  (this : Dist.EventEmitter) (obj : gmap string (option Handlers))
  (k : string) :
  Dist._eventHandlers this = Some obj →
  (∀ m, m ∈ ms → method_type m ≠ k) →
  (∀ m, m ∈ ms →
     get obj (method_type m) ≠ Object_prototype
     ∧ single_is_Function (get obj (method_type m))) →
  all_Function (added ms) →
  ∃ this' obj',
    for_each dist_invoke ms this = Normal this'
    ∧ Dist._eventHandlers this' = Some obj'
    ∧ Dist._pipedEventHandlers this' = Dist._pipedEventHandlers this
    ∧ get obj' k = get obj k
    ∧ Dist.getEventListenerCount k this' = Dist.getEventListenerCount k this.
Proof.
  revert this obj.
  induction ms as [|m ms IH]; intros this obj Hlive Hother Hslots Hadded;
    simpl.
  - exists this, obj. repeat split; auto.
  - rewrite added_cons in Hadded.
    apply all_Function_app in Hadded. destruct Hadded as [Hm Hrest].
    destruct (Hslots m) as [Ho Hs]; [left|].
    destruct (dist_invoke_step m this obj Hlive Ho Hs)
      as (this1 & obj1 & Hstep & Hlive1 & Hk1 & Hp1 & Ho1 & Hs1 & _).
    { exact Hm. }
    rewrite Hstep.
    destruct (IH this1 obj1 Hlive1)
      as (this' & obj' & Hrun & Hlive' & Hp & Hk & Hc).
    { intros m' Hm'. apply Hother. right. exact Hm'. }
    { exact (dist_invoke_keeps_slots m ms obj obj1 Hk1 Ho1 Hs1 Hslots). }
    { exact Hrest. }
    exists this', obj'. split; [exact Hrun|]. split; [exact Hlive'|].
    assert (Hget : get obj' k = get obj k).
    { rewrite Hk. apply Hk1. apply Hother. left. }
    split; [rewrite Hp; exact Hp1|]. split; [exact Hget|].
    unfold Dist.getEventListenerCount. rewrite Hlive', Hlive, Hget.
    reflexivity.
Qed.

Lemma dist_registry_calls_keep_other_types_witness :
  ∃ this',
    for_each dist_invoke
      [add "a" Sample.h3; remove "a" Sample.h1; removeAll "b"]
      Sample.dist_two = Normal this'
    ∧ Dist.getEventListenerCount "count" this' = Normal 2.
Proof.
  destruct (dist_registry_calls_keep_other_types
              [add "a" Sample.h3; remove "a" Sample.h1; removeAll "b"]
              Sample.dist_two {[ "count" := Some (Arr [Sample.h1; Sample.h2]) ]}
              "count" eq_refl)
    as (this' & obj' & Hrun & _ & _ & _ & Hcount).
  - intros m Hm. each_element Hm; discriminate.
  - intros m Hm. each_element Hm; split; by_reading.
  - intros f Hf. vm_compute in Hf. each_element Hf; reflexivity.
  - exists this'. split; [exact Hrun | exact Hcount].
Defined.

(** X8. dist/EventEmitter.js: under the conditions of X6 on the calls, a
    slot that holds an array holds an array after any sequence of
    [addEventListener], [removeEventListener] and
    [removeAllEventListeners] calls on a live emitter: removing listeners
    never turns it back into a single function or [undefined]. *)
Theorem dist_array_slot_stays_array (ms : list Method)
  (this : Dist.EventEmitter) (obj : gmap string (option Handlers))
  (k : string) (a : list Callback) :
  Dist._eventHandlers this = Some obj →
  get obj k = Some (Arr a) →
  (∀ m, m ∈ ms →
     get obj (method_type m) ≠ Object_prototype
     ∧ single_is_Function (get obj (method_type m))) →
  all_Function (added ms) →
  ∃ this' obj' a',
    for_each dist_invoke ms this = Normal this'
    ∧ Dist._eventHandlers this' = Some obj'
    ∧ get obj' k = Some (Arr a').
Proof.
  revert this obj a.
  induction ms as [|m ms IH]; intros this obj a Hlive Hget Hslots Hadded;
    simpl.
  - exists this, obj, a. repeat split; auto.
  - rewrite added_cons in Hadded.
    apply all_Function_app in Hadded. destruct Hadded as [Hm Hrest].
    destruct (Hslots m) as [Ho Hs]; [left|].
    destruct (dist_invoke_step m this obj Hlive Ho Hs)
      as (this1 & obj1 & Hstep & Hlive1 & Hk1 & _ & Ho1 & Hs1 & Harr).
    { exact Hm. }
    rewrite Hstep.
    pose proof (dist_invoke_keeps_slots m ms obj obj1 Hk1 Ho1 Hs1 Hslots)
      as Hslots1.
    destruct (decide (method_type m = k)) as [Heq | Hne].
    + rewrite Heq in Harr. destruct (Harr a Hget) as [a1 Hget1].
      exact (IH this1 obj1 a1 Hlive1 Hget1 Hslots1 Hrest).
    + apply (IH this1 obj1 a Hlive1); [|exact Hslots1 | exact Hrest].
      rewrite (Hk1 k Hne). exact Hget.
Qed.

Lemma dist_array_slot_stays_array_witness :
  ∃ this' obj',
    for_each dist_invoke
      [remove "count" Sample.h1; remove "count" Sample.h2]
      Sample.dist_two = Normal this'
    ∧ Dist._eventHandlers this' = Some obj'
    ∧ get obj' "count" = Some (Arr []).
Proof.
  destruct (dist_array_slot_stays_array
              [remove "count" Sample.h1; remove "count" Sample.h2]
              Sample.dist_two {[ "count" := Some (Arr [Sample.h1; Sample.h2]) ]}
              "count" [Sample.h1; Sample.h2] eq_refl eq_refl)
    as (this' & obj' & a' & Hrun & Hlive & Hget).
  - intros m Hm. each_element Hm; split; by_reading.
  - intros f Hf. vm_compute in Hf. each_element Hf.
  - exists this', obj'. split; [exact Hrun|]. split; [exact Hlive|].
    vm_compute in Hrun. injection Hrun as Hrun. subst this'.
    simpl in Hlive. injection Hlive as Hlive. subst obj'. reflexivity.
Defined.

(** ** dist/EventEmitter.js: adding, then removing *)

Lemma dist_remove_on_array (this : Dist.EventEmitter)
  (obj : gmap string (option Handlers)) (type_ : string)
  (callback : Callback) (a : list Callback) :
  Dist._eventHandlers this = Some obj →
  get obj type_ = Some (Arr a) →
  Dist.removeEventListener type_ callback this
  = Normal (Dist.set_handler this obj type_
              (Some (Arr (remove_first callback a)))).
Proof.
  intros Hlive Hget. unfold Dist.removeEventListener.
  rewrite Hlive, Hget, scan_up_remove_first. reflexivity.
Qed.

(** X7. dist/EventEmitter.js, live emitter, [cb] a function whose
    [constructor] is [Function], as is a function held alone by the slot,
    the lookup of [type] not ending at [Object.prototype] itself:
    [addEventListener(type, cb)] followed by [removeEventListener(type, cb)]
    completes normally and brings the count for [type] back to what it was.
    When [cb] was not among the functions found under [type] before, these
    are again the ones there were, in the same order. When it was, the
    earliest occurrence is the one taken out, and the new one stays at the
    end. *)
Theorem dist_add_then_remove (this : Dist.EventEmitter)
  (obj : gmap string (option Handlers)) (type_ : string)
  (callback : Callback) :
  Dist._eventHandlers this = Some obj →
  get obj type_ ≠ Object_prototype →
  single_is_Function (get obj type_) →
  constructor_is_Function callback = true →
  ∃ this1 this2 obj2,
    Dist.addEventListener type_ callback this = Normal this1
    ∧ Dist.removeEventListener type_ callback this1 = Normal this2
    ∧ Dist._eventHandlers this2 = Some obj2
    ∧ Dist.getEventListenerCount type_ this2
      = Dist.getEventListenerCount type_ this
    ∧ (callback ∉ listeners (get obj type_) →
       listeners (get obj2 type_) = listeners (get obj type_))
    ∧ (∀ pre post,
         listeners (get obj type_) = pre ++ callback :: post →
         callback ∉ pre →
         listeners (get obj2 type_) = pre ++ post ++ [callback]).
Proof.
  intros Hlive Hobject Hsingle Hcb.
  assert (Hall : ∃ this1 this2 obj2,
             Dist.addEventListener type_ callback this = Normal this1
             ∧ Dist.removeEventListener type_ callback this1 = Normal this2
             ∧ Dist._eventHandlers this2 = Some obj2
             ∧ listeners (get obj2 type_)
               = remove_first callback (listeners (get obj type_) ++ [callback])
             ∧ get obj2 type_ ≠ Object_prototype
             ∧ single_is_Function (get obj2 type_)).
  { unfold Dist.addEventListener. rewrite Hlive.
    destruct (get obj type_) as [[[f|a]|]|] eqn:Hget.
    - rewrite (Hsingle f eq_refl).
      eexists _, _, _. split; [reflexivity|].
      split; [eapply dist_remove_on_array; [reflexivity | apply get_insert]|].
      split; [reflexivity|]. rewrite get_insert.
      split; [reflexivity|]. split; [discriminate|].
      intros g Hg. discriminate Hg.
    - eexists _, _, _. split; [reflexivity|].
      split; [eapply dist_remove_on_array; [reflexivity | apply get_insert]|].
      split; [reflexivity|]. rewrite get_insert.
      split; [reflexivity|]. split; [discriminate|].
      intros g Hg. discriminate Hg.
    - eexists _, _, _. split; [reflexivity|].
      split.
      { unfold Dist.removeEventListener. simpl. rewrite get_insert, Hcb.
        reflexivity. }
      split; [reflexivity|]. rewrite get_insert. simpl.
      rewrite decide_True by reflexivity.
      split; [reflexivity|]. split; [discriminate|].
      intros g Hg. discriminate Hg.
    - destruct Hobject. reflexivity. }
  destruct Hall as (this1 & this2 & obj2 & Hadd & Hrem & Hlive2 & Hl & Ho2 & Hs2).
  exists this1, this2, obj2.
  split; [exact Hadd|]. split; [exact Hrem|]. split; [exact Hlive2|].
  split; [|split].
  - rewrite (dist_count_listeners this2 obj2 type_ Hlive2 Ho2 Hs2).
    rewrite (dist_count_listeners this obj type_ Hlive Hobject Hsingle).
    do 2 f_equal.
    apply eq_add_S. rewrite Hl, remove_first_length.
    + rewrite length_app. simpl. lia.
    + rewrite elem_of_app, list_elem_of_singleton. right. reflexivity.
  - intros Hnot. rewrite Hl, remove_first_middle by exact Hnot.
    apply app_nil_r.
  - intros pre post Hsplit Hpre. rewrite Hl, Hsplit, <- app_assoc. simpl.
    apply remove_first_middle. exact Hpre.
Qed.

Lemma dist_add_then_remove_witness :
  ∃ this1 this2,
    Dist.addEventListener "count" Sample.h1 Sample.dist_two = Normal this1
    ∧ Dist.removeEventListener "count" Sample.h1 this1 = Normal this2
    ∧ Dist.getEventListenerCount "count" this2 = Normal 2.
Proof.
  destruct (dist_add_then_remove Sample.dist_two
              {[ "count" := Some (Arr [Sample.h1; Sample.h2]) ]}
              "count" Sample.h1 eq_refl)
    as (this1 & this2 & obj2 & Hadd & Hrem & _ & Hcount & _);
    try by_reading; [reflexivity|].
  exists this1, this2. split; [exact Hadd|]. split; [exact Hrem|].
  rewrite Hcount. reflexivity.
Defined.

(** ** dist/EventEmitter.js: how a slot stores its listeners *)

Lemma dist_add_all_to_array (cbs : list Callback) (this : Dist.EventEmitter)
  (obj : gmap string (option Handlers)) (type_ : string) (a : list Callback) :
  Dist._eventHandlers this = Some obj →
  get obj type_ = Some (Arr a) →
  ∃ this' obj',
    for_each (Dist.addEventListener type_) cbs this = Normal this'
    ∧ Dist._eventHandlers this' = Some obj'
    ∧ get obj' type_ = Some (Arr (a ++ cbs)).
Proof.
  revert this obj a. induction cbs as [|cb cbs IH]; intros this obj a Hlive Hget;
    simpl.
  - exists this, obj. rewrite app_nil_r. repeat split; auto.
  - unfold Dist.addEventListener at 1. rewrite Hlive, Hget.
    destruct (IH (Dist.set_handler this obj type_ (Some (Arr (push a cb))))
                (<[type_ := Some (Arr (push a cb))]> obj) (push a cb)
                eq_refl (get_insert _ _ _))
      as (this' & obj' & Hrun & Hlive' & Hget').
    exists this', obj'. split; [exact Hrun|]. split; [exact Hlive'|].
    rewrite Hget'. unfold push. rewrite <- app_assoc. reflexivity.
Qed.

(** X9. dist/EventEmitter.js, live emitter, the lookup of [type] giving
    [undefined]: after one registration the slot refers to the function
    itself, after two or more to an array of the functions in the order of
    registration (what the test suite reads off
    [ee._eventListeners['count']]), if the first of them has [Function] as
    its [constructor]. *)
Theorem dist_slot_after_registrations (cbs : list Callback)
  (this : Dist.EventEmitter) (obj : gmap string (option Handlers))
  (type_ : string) :
  Dist._eventHandlers this = Some obj →
  get obj type_ = None →
  (1 < length cbs → all_Function (take 1 cbs)) →
  ∃ this' obj',
    for_each (Dist.addEventListener type_) cbs this = Normal this'
    ∧ Dist._eventHandlers this' = Some obj'
    ∧ get obj' type_
      = match cbs with
        | [] => None
        | [callback] => Some (Fn callback)
        | _ => Some (Arr cbs)
        end.
Proof.
  intros Hlive Hget Hfirst. destruct cbs as [|cb1 [|cb2 cbs]]; simpl.
  - exists this, obj. repeat split; auto.
  - unfold Dist.addEventListener. rewrite Hlive, Hget.
    eexists _, _. split; [reflexivity|]. split; [reflexivity|].
    apply get_insert.
  - assert (Hcb1 : constructor_is_Function cb1 = true).
    { apply Hfirst; [simpl; lia | left]. }
    unfold Dist.addEventListener at 1. rewrite Hlive, Hget.
    unfold Dist.addEventListener at 1. simpl. rewrite get_insert, Hcb1.
    eapply (dist_add_all_to_array cbs _ _ type_ [cb1; cb2]);
      [reflexivity | apply get_insert].
Qed.

Lemma dist_slot_after_registrations_witness :
  ∃ this' obj',
    for_each (Dist.addEventListener "a") [Sample.h1; Sample.h2; Sample.h1]
      Sample.dist_one = Normal this'
    ∧ Dist._eventHandlers this' = Some obj'
    ∧ get obj' "a" = Some (Arr [Sample.h1; Sample.h2; Sample.h1]).
Proof.
  apply (dist_slot_after_registrations [Sample.h1; Sample.h2; Sample.h1]
           Sample.dist_one {[ "count" := Some (Fn Sample.h1) ]} "a"
           eq_refl eq_refl).
  intros _ f Hf. vm_compute in Hf. each_element Hf; reflexivity.
Defined.

(** ** src/EventEmitter.js: what its scan does remove *)

(** X10. src/EventEmitter.js:139-158, live emitter, array slot: the scan
    takes out the last element equal to the callback among the indices 1 and
    up, whatever sits at index 0 (the callback itself, maybe), and the count
    drops by one. *)
Theorem src_remove_takes_last_match_above_index_0 (this : Src.EventEmitter)
  (obj : gmap string (option Handlers)) (type_ : string)
  (callback x : Callback) (pre post : list Callback) :
  Src._eventListeners this = Some obj →
  get obj type_ = Some (Arr (x :: pre ++ callback :: post)) →
  callback ∉ post →
  Src.removeEventListener type_ callback this
  = Normal (Src.set_listener obj type_ (Some (Arr (x :: pre ++ post))))
  ∧ Src.getEventListenerCount type_ this
    = Normal (S (length (x :: pre ++ post)))
  ∧ Src.getEventListenerCount type_
      (Src.set_listener obj type_ (Some (Arr (x :: pre ++ post))))
    = Normal (length (x :: pre ++ post)).
Proof.
  intros Hlive Hget Hpost. split; [|split].
  - unfold Src.removeEventListener. rewrite Hlive, Hget.
    rewrite scan_down_remove_last, remove_last_middle by exact Hpost.
    reflexivity.
  - unfold Src.getEventListenerCount. rewrite Hlive, Hget. simpl.
    rewrite !length_app. simpl. do 2 f_equal. lia.
  - unfold Src.getEventListenerCount. simpl. rewrite get_insert. reflexivity.
Qed.

Lemma src_remove_takes_last_match_witness :
  Src.removeEventListener "count" Sample.h1 Sample2.src_four
  = Normal (Src.set_listener
              {[ "count" := Some (Arr [Sample.h1; Sample.h2;
                                       Sample.h1; Sample.h2]) ]}
              "count" (Some (Arr [Sample.h1; Sample.h2; Sample.h2]))).
Proof.
  destruct (src_remove_takes_last_match_above_index_0 Sample2.src_four
              {[ "count" := Some (Arr [Sample.h1; Sample.h2;
                                       Sample.h1; Sample.h2]) ]}
              "count" Sample.h1 Sample.h1 [Sample.h2] [Sample.h2]
              eq_refl eq_refl) as (Hrem & _ & _).
  - rewrite list_elem_of_singleton. discriminate.
  - exact Hrem.
Defined.

(** X11. src/EventEmitter.js, live emitter, array slot: after
    [removeAllEventListeners(type)] has emptied the array, a listener added
    with [addEventListener(type, cb)] lands at index 0, and
    [removeEventListener(type, cb)] leaves the emitter as it is: the
    listener stays registered, and the count stays 1. *)
Theorem src_listener_added_to_emptied_array_stays (this : Src.EventEmitter)
  (obj : gmap string (option Handlers)) (type_ : string)
  (callback : Callback) (a : list Callback) :
  Src._eventListeners this = Some obj →
  get obj type_ = Some (Arr a) →
  ∃ s1 s2 obj2,
    Src.removeAllEventListeners type_ this = Normal s1
    ∧ Src.addEventListener type_ callback s1 = Normal s2
    ∧ Src.removeEventListener type_ callback s2 = Normal s2
    ∧ Src._eventListeners s2 = Some obj2
    ∧ get obj2 type_ = Some (Arr [callback])
    ∧ Src.getEventListenerCount type_ s2 = Normal 1.
Proof.
  intros Hlive Hget.
  eexists _, _, _. split.
  { unfold Src.removeAllEventListeners. rewrite Hlive, Hget.
    rewrite pop_times_empty by lia. reflexivity. }
  split.
  { unfold Src.addEventListener. simpl. rewrite get_insert. reflexivity. }
  split; [|split; [reflexivity|split]].
  - unfold Src.removeEventListener.
    cbn [Src._eventListeners Src.set_listener]. rewrite get_insert.
    change (push [] callback) with [callback].
    rewrite (scan_down_only_at_0 callback [] (not_elem_of_nil callback)).
    unfold Src.set_listener. rewrite !insert_insert_eq. reflexivity.
  - apply get_insert.
  - unfold Src.getEventListenerCount. simpl. rewrite get_insert. reflexivity.
Qed.

Lemma src_listener_added_to_emptied_array_stays_witness :
  ∃ s1 s2,
    Src.removeAllEventListeners "count" Sample.src_two = Normal s1
    ∧ Src.addEventListener "count" Sample.h3 s1 = Normal s2
    ∧ Src.removeEventListener "count" Sample.h3 s2 = Normal s2
    ∧ Src.getEventListenerCount "count" s2 = Normal 1.
Proof.
  destruct (src_listener_added_to_emptied_array_stays Sample.src_two
              {[ "count" := Some (Arr [Sample.h1; Sample.h2]) ]}
              "count" Sample.h3 [Sample.h1; Sample.h2] eq_refl eq_refl)
    as (s1 & s2 & obj2 & H1 & H2 & H3 & _ & _ & H4).
  exists s1, s2. repeat split; assumption.
Defined.

(** ** src/EventEmitter.js: dispatch *)



(** ** The piped build: removal, counting, throwing *)

(** X13. src/EventEmitter.js:397-416 (the piped build), live emitter, array
    slot: [removeEventListener] takes out the last element equal to the
    callback, index 0 included, and nothing else; the count drops by one. *)
Theorem piped_build_remove_takes_last_match (this : PipedBuild.EventEmitter)
  (obj : gmap string (option Handlers)) (type_ : string)
  (callback : Callback) (pre post : list Callback) :
  PipedBuild._eventListeners this = Some obj →
  get obj type_ = Some (Arr (pre ++ callback :: post)) →
  callback ∉ post →
  PipedBuild.removeEventListener type_ callback this
  = Normal (PipedBuild.set_listener this obj type_ (Some (Arr (pre ++ post))))
  ∧ PipedBuild.getEventListenerCount type_ this
    = Normal (S (length (pre ++ post)))
  ∧ PipedBuild.getEventListenerCount type_
      (PipedBuild.set_listener this obj type_ (Some (Arr (pre ++ post))))
    = Normal (length (pre ++ post)).
Proof.
  intros Hlive Hget Hpost. split; [|split].
  - unfold PipedBuild.removeEventListener. rewrite Hlive, Hget.
    rewrite scan_back_remove_last, remove_last_middle by exact Hpost.
    reflexivity.
  - unfold PipedBuild.getEventListenerCount. rewrite Hlive, Hget.
    rewrite !length_app. simpl. do 2 f_equal. lia.
  - unfold PipedBuild.getEventListenerCount. simpl. rewrite get_insert.
    reflexivity.
Qed.

Lemma piped_build_remove_takes_last_match_witness :
  PipedBuild.removeEventListener "count" Sample.h2 Sample2.piped_three
  = Normal
      (PipedBuild.set_listener Sample2.piped_three
         {[ "count" := Some (Arr [Sample.h1; Sample.h2; Sample.h1]) ]}
         "count" (Some (Arr [Sample.h1; Sample.h1])))
  ∧ (∃ this,
       PipedBuild.removeEventListener "count" Sample.h1 Sample2.piped_three
       = Normal this
       ∧ PipedBuild.getEventListenerCount "count" this = Normal 2).
Proof.
  split.
  - destruct (piped_build_remove_takes_last_match Sample2.piped_three
                {[ "count" := Some (Arr [Sample.h1; Sample.h2; Sample.h1]) ]}
                "count" Sample.h2 [Sample.h1] [Sample.h1] eq_refl eq_refl)
      as (Hrem & _ & _).
    + rewrite list_elem_of_singleton. discriminate.
    + exact Hrem.
  - destruct (piped_build_remove_takes_last_match Sample2.piped_three
                {[ "count" := Some (Arr [Sample.h1; Sample.h2; Sample.h1]) ]}
                "count" Sample.h1 [Sample.h1; Sample.h2] [] eq_refl eq_refl)
      as (Hrem & _ & Hcount).
    + apply not_elem_of_nil.
    + eexists. split; [exact Hrem | exact Hcount].
Defined.

(** X14. src/EventEmitter.js:326-359 (the piped build), live emitter: let
    the functions found under the event's type (an inherited one included),
    last registered first, followed by the piped listeners, last piped
    first, be [pre ++ f :: post]. When those of [pre] complete normally and
    [f] throws, [triggerEvent] ends with that exception, having called [pre]
    and [f] and none of [post]. *)
Theorem piped_build_trigger_stops_at_first_throw {U : Type}
  (listener : Callback → PipedBuild.EventEmitter → list Event → U
              → Completion unit * U)
  (this : PipedBuild.EventEmitter) (obj : gmap string (option Handlers))
  (event : Event) (pre post : list Callback) (f : Callback) (x : Exception)
  (u u1 u2 : U) :
  PipedBuild._eventListeners this = Some obj →
  reverse (listeners (get obj (type event)))
  ++ reverse (listeners (PipedBuild._pipedEventListeners this))
  = pre ++ f :: post →
  runs listener this event pre u u1 →
  respond listener f this [event] u1 = (Throw x, u2) →
  PipedBuild.triggerEvent listener this event u
  = {| invoked := map (invocation this event) (pre ++ [f]);
       completion := Throw x;
       state := u2 |}.
Proof.
  intros Hlive Hsplit Hruns Hthrow.
  rewrite (piped_build_trigger_deliver listener this obj event u Hlive).
  rewrite Hsplit.
  exact (deliver_throw listener this event pre post f x u u1 u2 Hruns Hthrow).
Qed.

Lemma piped_build_trigger_stops_at_first_throw_witness :
  PipedBuild.triggerEvent Sample.faulty Sample2.piped_three Sample.ev1 0
  = {| invoked := [invocation Sample2.piped_three Sample.ev1 Sample.h1;
                   invocation Sample2.piped_three Sample.ev1 Sample.h2];
       completion := Throw (Thrown 7);
       state := 1 |}
  ∧ PipedBuild.triggerEvent Sample.counting Sample2.piped_three
      Sample3.ev_defineGetter 0
    = {| invoked := [invocation Sample2.piped_three Sample3.ev_defineGetter
                       (member_fn ObjectPrototype.__defineGetter__)];
         completion := Throw TypeError;
         state := 0 |}.
Proof.
  split.
  - apply (piped_build_trigger_stops_at_first_throw (U := nat) Sample.faulty
             Sample2.piped_three
             {[ "count" := Some (Arr [Sample.h1; Sample.h2; Sample.h1]) ]}
             Sample.ev1 [Sample.h1] [Sample.h1; Sample.h2; Sample.h3]
             Sample.h2 (Thrown 7) 0 1 1).
    + reflexivity.
    + reflexivity.
    + apply (runs_cons _ _ _ Sample.h1 [] 0 1 1);
        [reflexivity | apply runs_nil].
    + reflexivity.
  - apply (piped_build_trigger_stops_at_first_throw (U := nat) Sample.counting
             Sample2.piped_three
             {[ "count" := Some (Arr [Sample.h1; Sample.h2; Sample.h1]) ]}
             Sample3.ev_defineGetter [] [Sample.h2; Sample.h3]
             (member_fn ObjectPrototype.__defineGetter__) TypeError 0 0 0).
    + reflexivity.
    + reflexivity.
    + apply runs_nil.
    + reflexivity.
Defined.

(** X15. src/EventEmitter.js:474-493 (the piped build): when the piped
    listeners are an array, [unpipe] takes out the last element equal to the
    callback and nothing else; the piped count drops by one and the typed
    registry is not touched. *)
Theorem piped_build_unpipe_takes_last_match (this : PipedBuild.EventEmitter)
  (callback : Callback) (pre post : list Callback) :
  PipedBuild._pipedEventListeners this = Some (Arr (pre ++ callback :: post)) →
  callback ∉ post →
  PipedBuild.unpipe callback this
  = PipedBuild.set_piped this (Some (Arr (pre ++ post)))
  ∧ S (PipedBuild.getPipedEventListenerCount (PipedBuild.unpipe callback this))
    = PipedBuild.getPipedEventListenerCount this
  ∧ PipedBuild._eventListeners (PipedBuild.unpipe callback this)
    = PipedBuild._eventListeners this.
Proof.
  intros Hpiped Hpost.
  assert (Hun : PipedBuild.unpipe callback this
                = PipedBuild.set_piped this (Some (Arr (pre ++ post)))).
  { unfold PipedBuild.unpipe. rewrite Hpiped.
    rewrite scan_back_remove_last, remove_last_middle by exact Hpost.
    reflexivity. }
  rewrite Hun. split; [reflexivity|]. split; [|reflexivity].
  unfold PipedBuild.getPipedEventListenerCount. rewrite Hpiped. simpl.
  rewrite !length_app. simpl. lia.
Qed.

Lemma piped_build_unpipe_takes_last_match_witness :
  PipedBuild._pipedEventListeners
    (PipedBuild.unpipe Sample.h3 Sample2.piped_three)
  = Some (Arr [Sample.h2]).
Proof.
  destruct (piped_build_unpipe_takes_last_match Sample2.piped_three Sample.h3
              [] [Sample.h2] eq_refl) as (Hun & _ & _).
  - rewrite list_elem_of_singleton. discriminate.
  - rewrite Hun. reflexivity.
Defined.

Lemma piped_build_count_listeners (this : PipedBuild.EventEmitter)
  (obj : gmap string (option Handlers)) (type_ : string) :
  PipedBuild._eventListeners this = Some obj →
  get obj type_ ≠ Object_prototype →
  PipedBuild.getEventListenerCount type_ this
  = Normal (length (listeners (get obj type_))).
Proof.
  intros Hlive Hobject. unfold PipedBuild.getEventListenerCount. rewrite Hlive.
  destruct (get obj type_) as [[[f|a]|]|]; try reflexivity.
  destruct Hobject. reflexivity.
Qed.

(** X16. src/EventEmitter.js:424-452 (the piped build), live emitter, the
    lookup of [type] not ending at [Object.prototype] itself: the count of
    [type] is the number of functions found under it, and grows by the
    number of registrations made; [removeAllEventListeners(type)] brings it
    to 0, a second call returns the same state, and the piped listeners are
    not touched. *)
Theorem piped_build_count_and_remove_all (this : PipedBuild.EventEmitter)
  (obj : gmap string (option Handlers)) (type_ : string)
  (cbs : list Callback) :
  PipedBuild._eventListeners this = Some obj →
  get obj type_ ≠ Object_prototype →
  ∃ this1 this2,
    for_each (PipedBuild.addEventListener type_) cbs this = Normal this1
    ∧ PipedBuild.getEventListenerCount type_ this1
      = Normal (length (listeners (get obj type_)) + length cbs)
    ∧ PipedBuild.removeAllEventListeners type_ this1 = Normal this2
    ∧ PipedBuild.removeAllEventListeners type_ this2 = Normal this2
    ∧ PipedBuild.getEventListenerCount type_ this2 = Normal 0
    ∧ PipedBuild._pipedEventListeners this2
      = PipedBuild._pipedEventListeners this.
Proof.
  intros Hlive Hobject.
  destruct (piped_build_add_all_appends cbs this obj type_ Hlive Hobject)
    as (this1 & obj1 & Hadd & Hlive1 & Hl & Hp & Ho1).
  exists this1.
  assert (Hcount : PipedBuild.getEventListenerCount type_ this1
                   = Normal (length (listeners (get obj type_)) + length cbs)).
  { rewrite (piped_build_count_listeners this1 obj1 type_ Hlive1 Ho1), Hl.
    rewrite length_app. reflexivity. }
  unfold PipedBuild.removeAllEventListeners at 1. rewrite Hlive1.
  destruct (get obj1 type_) as [[[f|a]|]|] eqn:Hget.
  - eexists. split; [exact Hadd|]. split; [exact Hcount|].
    split; [reflexivity|].
    unfold PipedBuild.removeAllEventListeners,
      PipedBuild.getEventListenerCount. simpl. rewrite get_insert.
    repeat split. exact Hp.
  - eexists. split; [exact Hadd|]. split; [exact Hcount|].
    split; [reflexivity|].
    unfold PipedBuild.removeAllEventListeners,
      PipedBuild.getEventListenerCount. simpl. rewrite get_insert.
    rewrite !pop_while_empty. unfold PipedBuild.set_listener. simpl.
    rewrite insert_insert_eq. repeat split. exact Hp.
  - exists this1. split; [exact Hadd|]. split; [exact Hcount|].
    split; [reflexivity|].
    unfold PipedBuild.removeAllEventListeners,
      PipedBuild.getEventListenerCount. rewrite Hlive1, Hget.
    repeat split. exact Hp.
  - destruct Ho1. reflexivity.
Qed.

Lemma piped_build_count_and_remove_all_witness :
  ∃ this1 this2,
    for_each (PipedBuild.addEventListener "count") [Sample.h3; Sample.h3]
      Sample2.piped_three = Normal this1
    ∧ PipedBuild.getEventListenerCount "count" this1 = Normal 5
    ∧ PipedBuild.removeAllEventListeners "count" this1 = Normal this2
    ∧ PipedBuild.getEventListenerCount "count" this2 = Normal 0.
Proof.
  destruct (piped_build_count_and_remove_all Sample2.piped_three
              {[ "count" := Some (Arr [Sample.h1; Sample.h2; Sample.h1]) ]}
              "count" [Sample.h3; Sample.h3] eq_refl)
    as (this1 & this2 & Hadd & Hcount & Hrem & _ & Hzero & _);
    [by_reading|].
  exists this1, this2. repeat split; assumption.
Defined.

(** ** The build with [_eventCallbacks] *)

Lemma callback_build_add_untyped (cbs : list Callback)
  (this : CallbackBuild.EventEmitter) :
  ∃ this',
    for_each (λ cb, CallbackBuild.addEventListener (CallbackBuild.untyped cb))
      cbs this = Normal this'
    ∧ default [] (CallbackBuild._eventCallbacks this')
      = default [] (CallbackBuild._eventCallbacks this) ++ cbs
    ∧ CallbackBuild._eventListeners this'
      = CallbackBuild._eventListeners this.
Proof.
  revert this. induction cbs as [|cb cbs IH]; intros this; simpl.
  - exists this. rewrite app_nil_r. repeat split.
  - destruct (IH (CallbackBuild._addEventCallback cb this))
      as (this' & Hrun & Hl & Hr).
    exists this'. split; [exact Hrun|]. rewrite Hl, Hr.
    unfold CallbackBuild._addEventCallback.
    destruct (CallbackBuild._eventCallbacks this) as [a|]; simpl;
      unfold push; rewrite <- ?app_assoc; split; reflexivity.
Qed.

(** X17. src/EventEmitter.js:761-777 and 823-831 (the build with
    [_eventCallbacks]): after [addEventListener(cb)] has been called for each
    function of [cbs], [_getEventCallbackCount()] has grown by their number,
    and [getEventListenerCount()] called without a type still returns 0: it
    calls [_getEventCallbackCount()] and drops the value. *)
Theorem callback_build_count_without_type_is_0 (cbs : list Callback)
  (this : CallbackBuild.EventEmitter) :
  ∃ this',
    for_each (λ cb, CallbackBuild.addEventListener (CallbackBuild.untyped cb))
      cbs this = Normal this'
    ∧ CallbackBuild._getEventCallbackCount this'
      = CallbackBuild._getEventCallbackCount this + length cbs
    ∧ CallbackBuild.getEventListenerCount None this' = Normal 0.
Proof.
  destruct (callback_build_add_untyped cbs this) as (this' & Hrun & Hl & _).
  exists this'. split; [exact Hrun|]. split; [|reflexivity].
  assert (Hcount : ∀ e, CallbackBuild._getEventCallbackCount e
                        = length (default [] (CallbackBuild._eventCallbacks e))).
  { intros e. unfold CallbackBuild._getEventCallbackCount.
    destruct (CallbackBuild._eventCallbacks e); reflexivity. }
  rewrite !Hcount, Hl, length_app. reflexivity.
Qed.

(** X18. src/EventEmitter.js:795-818 (the build with [_eventCallbacks]):
    while [_eventCallbacks] is [null], as on a new emitter,
    [removeEventListener(cb)] and [removeAllEventListeners()] throw a
    [TypeError]. Once it is an array, [removeEventListener(cb)] takes out the
    last element equal to [cb], and [removeAllEventListeners()] leaves an
    empty array, so neither throws afterwards. *)
Theorem callback_build_untyped_removal (this : CallbackBuild.EventEmitter)
  (callback : Callback) :
  (CallbackBuild._eventCallbacks this = None →
   CallbackBuild.removeEventListener (CallbackBuild.untyped callback) this
   = Throw TypeError
   ∧ CallbackBuild.removeAllEventListeners None this = Throw TypeError)
  ∧ (∀ pre post,
       CallbackBuild._eventCallbacks this = Some (pre ++ callback :: post) →
       callback ∉ post →
       CallbackBuild.removeEventListener (CallbackBuild.untyped callback) this
       = Normal (CallbackBuild.set_callbacks this (pre ++ post)))
  ∧ (∀ a,
       CallbackBuild._eventCallbacks this = Some a →
       callback ∉ a →
       CallbackBuild.removeEventListener (CallbackBuild.untyped callback) this
       = Normal this)
  ∧ (∀ a,
       CallbackBuild._eventCallbacks this = Some a →
       CallbackBuild.removeAllEventListeners None this
       = Normal (CallbackBuild.set_callbacks this [])
       ∧ CallbackBuild.removeAllEventListeners None
           (CallbackBuild.set_callbacks this [])
         = Normal (CallbackBuild.set_callbacks this [])).
Proof.
  split; [|split; [|split]].
  - intros Hnull. simpl.
    unfold CallbackBuild._removeEventCallback,
      CallbackBuild._removeAllEventCallbacks.
    rewrite Hnull. split; reflexivity.
  - intros pre post Ha Hpost. simpl.
    unfold CallbackBuild._removeEventCallback. rewrite Ha.
    rewrite scan_back_remove_last, remove_last_middle by exact Hpost.
    reflexivity.
  - intros a Ha Hnot. simpl.
    unfold CallbackBuild._removeEventCallback. rewrite Ha.
    rewrite scan_back_remove_last, remove_last_absent by exact Hnot.
    destruct this as [el ec]. simpl in Ha. subst ec. reflexivity.
  - intros a Ha. simpl. unfold CallbackBuild._removeAllEventCallbacks.
    rewrite Ha. simpl. rewrite !pop_while_empty. split; reflexivity.
Qed.

Lemma callback_build_untyped_removal_witness :
  CallbackBuild.removeEventListener (CallbackBuild.untyped Sample.h1)
    CallbackBuild.constructor = Throw TypeError
  ∧ CallbackBuild.removeEventListener (CallbackBuild.untyped Sample.h3)
      Sample2.callbacks_two
    = Normal (CallbackBuild.set_callbacks Sample2.callbacks_two [Sample.h1]).
Proof.
  split.
  - destruct (callback_build_untyped_removal CallbackBuild.constructor
                Sample.h1) as (Hnull & _).
    destruct (Hnull eq_refl) as [Hthrow _]. exact Hthrow.
  - destruct (callback_build_untyped_removal Sample2.callbacks_two Sample.h3)
      as (_ & Hlast & _).
    apply (Hlast [] [Sample.h1] eq_refl).
    rewrite list_elem_of_singleton. discriminate.
Defined.


